(** * Dog-Breed-Classification: the train / validate loop and the test routine

    A shallow embedding of the two notebooks' [train] and [test] functions
    (they are the same text in both notebooks) and of the cells that build
    the transfer-learning optimizer.  The deep-learning framework the
    notebooks call into (tensors, forward pass, autograd, data loaders) is
    taken as a parameter; the Python glue around it is modelled as written:
    Python floats are IEEE binary64 values, model objects live in a store
    and are passed by reference, [print] and [torch.save] are recorded. *)

From Stdlib Require Import ZArith List Bool Ascii Floats Uint63 Lia.
From stdpp Require Import gmap strings list fin_maps.

Local Open Scope Z_scope.

(** ** Python floats *)

Module PyFloat.

(** Exceptions the glue code can raise.  [NoSuchObject] is not a Python
    exception: it marks a handle that denotes no object of the store,
    which a running Python program cannot hold. *)
Inductive exn : Type :=
| ZeroDivisionError
| ValueError
| OverflowError
| NoSuchObject.

Inductive result (A : Type) : Type :=
| Ok (a : A)
| Raise (e : exn).
Arguments Ok {A} a.
Arguments Raise {A} e.

(** [float(n)] for a Python int; lengths and tensor sizes are
    non-negative and below 2^63. *)
Definition float_of_int (n : Z) : float :=
  if n <? 0 then PrimFloat.opp (PrimFloat.of_uint63 (Uint63.of_Z (- n)))
  else PrimFloat.of_uint63 (Uint63.of_Z n).

(** [x * n] with [x] a float and [n] an int. *)
Definition mul_int (x : float) (n : Z) : float :=
  PrimFloat.mul x (float_of_int n).

(** [x / n] with [x] a float and [n] an int: Python raises on a zero
    divisor instead of returning an infinity or a NaN. *)
Definition div_int (x : float) (n : Z) : result float :=
  if n =? 0 then Raise ZeroDivisionError
  else Ok (PrimFloat.div x (float_of_int n)).

(** [x / y] on Python floats. *)
Definition div (x y : float) : result float :=
  if PrimFloat.eqb y PrimFloat.zero then Raise ZeroDivisionError
  else Ok (PrimFloat.div x y).

(** [x <= y]; false as soon as one side is a NaN. *)
Definition le (x y : float) : bool := PrimFloat.leb x y.

(** [np.Inf] *)
Definition Inf : float := PrimFloat.infinity.

(** [int(x)], which the [%d] conversion applies to a float argument:
    truncation towards zero, an error on NaN and on the infinities. *)
Definition int_of_float (x : float) : result Z :=
  match Prim2SF x with
  | S754_nan => Raise ValueError
  | S754_infinity _ => Raise OverflowError
  | S754_zero _ => Ok 0
  | S754_finite s m e =>
      let a := if 0 <=? e then Z.shiftl (Zpos m) e
               else Z.shiftr (Zpos m) (- e) in
      Ok (if s then - a else a)
  end.

End PyFloat.
Export PyFloat.

(** ** The framework the notebooks call into

    Everything [torch], [torchvision] and [numpy] supply is a field of this
    interface: the notebooks only sequence calls to it.  The calls are
    taken to return (shapes fit, files can be written); the exceptions
    modelled are those of the Python glue itself. *)

Class Framework : Type := {
  (** contents of a [torch.Tensor] *)
  Tensor : Type;
  (** a batch of images, a batch of labels, a batch of logits *)
  Data : Type;
  Target : Type;
  Output : Type;
  (** what a module holds besides its parameters (the running statistics
      of the batch-normalisation layers); part of [state_dict()] *)
  Buffers : Type;
  (** the random number generators (shuffling, augmentation, dropout) *)
  World : Type;
  (** a loss function object such as [nn.CrossEntropyLoss()] *)
  Criterion : Type;
  (** [data.size(0)] *)
  size0 : Data -> Z;
  (** [data.cuda()], [target.cuda()] *)
  cuda_data : Data -> Data;
  cuda_target : Target -> Target;
  (** [model(data)]: the modules are never switched to evaluation mode, so
      a forward pass may draw random numbers and update the buffers; it
      reads the parameters and cannot write them *)
  forward : World -> gmap string Tensor -> Buffers -> Data ->
            Output * Buffers * World;
  (** [criterion(output, target).item()] *)
  loss_item : Criterion -> Output -> Target -> float;
  (** the gradient of [criterion(model(data), target)] with respect to
      each parameter, as [loss.backward()] computes it from the graph the
      forward pass recorded *)
  autograd : Criterion -> World -> gmap string Tensor -> Buffers -> Data ->
             Target -> gmap string Tensor;
  (** accumulation of a gradient into [p.grad], [p.grad.zero_()], and the
      update [p.data.add_(-lr, p.grad)] of plain SGD *)
  tensor_add : Tensor -> Tensor -> Tensor;
  zeros_like : Tensor -> Tensor;
  sgd_update : float -> Tensor -> Tensor -> Tensor;
  (** [output.data.max(1, keepdim=True)[1]]: the index of the largest
      logit of each sample; the labels of a batch *)
  max1 : Output -> list Z;
  labels : Target -> list Z
}.

(** ** Objects, store and effects *)

Section Model.

Context {F : Framework}.

(** A parameter object.  [require_grad] is the attribute the
    "freeze" cell of the transfer notebook creates; the framework reads
    [requires_grad] only. *)
Record Param : Type := mkParam {
  p_data : Tensor;
  p_grad : option Tensor;
  requires_grad : bool;
  require_grad : option bool
}.

(** An [nn.Module]: its parameters by qualified name
    (["features.0.weight"], ["classifier.6.bias"]) and its buffers. *)
Record Module : Type := mkModule {
  named_parameters : gmap string Param;
  buffers : Buffers
}.

(** Object identity of a module. *)
Definition loc : Type := positive.

(** [model.state_dict()] as [torch.save] serialises it. *)
Definition StateDict : Type := (gmap string Tensor * Buffers)%type.

(** A [DataLoader]: [len(loader.dataset)], [len(loader)], and the batches
    one iteration over it yields (shuffled, so they depend on the
    generators). *)
Record DataLoader : Type := mkLoader {
  dataset_len : Z;
  loader_len : Z;
  batches : World -> list (Data * Target) * World
}.

(** The [loaders] dictionary with its three keys. *)
Record Loaders : Type := mkLoaders {
  loader_train : DataLoader;
  loader_valid : DataLoader;
  loader_test : DataLoader
}.

(** [optim.SGD]: references to the parameters it was built over, and
    the learning rate. *)
Record SGD : Type := mkSGD {
  param_group : list (loc * string);
  lr : float
}.

(** What a run does to the outside: lines printed and files written. *)
Inductive Effect : Type :=
| PrintTrainingBatch (batch_idx n_batches : Z)
| PrintValidationBatch (batch_idx n_batches : Z)
| PrintEpoch (epoch : Z) (train_loss valid_loss : float)
| PrintSaving (valid_loss_min valid_loss : float)
| TorchSave (path : string) (sd : StateDict)
| PrintTestLoss (test_loss : float)
| PrintTestAccuracy (percent correct total : Z).

Record State : Type := mkState {
  heap : gmap loc Module;
  world : World;
  files : gmap string StateDict;
  effects : list Effect
}.

Definition set_heap (h : gmap loc Module) (st : State) : State :=
  mkState h (world st) (files st) (effects st).
Definition set_world (w : World) (st : State) : State :=
  mkState (heap st) w (files st) (effects st).
Definition set_files (f : gmap string StateDict) (st : State) : State :=
  mkState (heap st) (world st) f (effects st).
Definition add_effect (e : Effect) (st : State) : State :=
  mkState (heap st) (world st) (files st) (effects st ++ [e]).

(** *** State and exception monad *)

Definition M (A : Type) : Type := State -> result (A * State).

Definition ret {A} (a : A) : M A := fun st => Ok (a, st).

Definition bind {A B} (m : M A) (k : A -> M B) : M B :=
  fun st => match m st with
            | Ok (a, st') => k a st'
            | Raise e => Raise e
            end.

Definition lift {A} (r : result A) : M A :=
  fun st => match r with Ok a => Ok (a, st) | Raise e => Raise e end.

Definition modify (f : State -> State) : M unit :=
  fun st => Ok (tt, f st).

(** [for x in l: s = body(s, x)] *)
Fixpoint for_each {A S} (body : S -> A -> M S) (l : list A) (s : S) : M S :=
  match l with
  | [] => ret s
  | a :: l' => bind (body s a) (for_each body l')
  end.

End Model.

Declare Scope py_scope.
Delimit Scope py_scope with py.
Notation "x <- m ;; k" := (bind m (fun x => k))
  (at level 100, m at next level, right associativity) : py_scope.
Notation "m ;; k" := (bind m (fun _ => k))
  (at level 100, right associativity) : py_scope.

Local Open Scope py_scope.

(** ** Framework calls acting on the store *)

Section Primitives.

Context {F : Framework}.

(** [print(...)] *)
Definition print (e : Effect) : M unit := modify (add_effect e).

(** The values of a module's parameters, by name. *)
Definition tensors (m : Module) : gmap string Tensor :=
  p_data <$> named_parameters m.

(** The parameter object [name] of the module at [l], if any. *)
Definition heap_param (h : gmap loc Module) (l : loc) (name : string)
  : option Param :=
  match h !! l with
  | Some m => named_parameters m !! name
  | None => None
  end.

Definition param_at (st : State) (l : loc) (name : string) : option Param :=
  heap_param (heap st) l name.

(** What [model(data)] returns: the logits and the graph they were
    computed by, which leads back to the parameters of [out_owner]. *)
Record Out : Type := mkOut {
  out_value : Output;
  out_owner : loc;
  out_graph : Criterion -> Target -> gmap string Tensor
}.

(** [model(data)] *)
Definition call (model : loc) (data : Data) : M Out :=
  fun st =>
    match heap st !! model with
    | None => Raise NoSuchObject
    | Some m =>
        let r := forward (world st) (tensors m) (buffers m) data in
        Ok (mkOut r.1.1 model
              (fun c t => autograd c (world st) (tensors m) (buffers m) data t),
            set_world r.2
              (set_heap (<[model := mkModule (named_parameters m) r.1.2]> (heap st)) st))
    end.

(** What [criterion(output, target)] returns. *)
Record Loss : Type := mkLoss {
  item : float;
  loss_owner : loc;
  loss_grads : gmap string Tensor
}.

Definition apply_criterion (c : Criterion) (o : Out) (t : Target) : Loss :=
  mkLoss (loss_item c (out_value o) t) (out_owner o) (out_graph o c t).

(** Autograd adds the gradient to [p.grad] of a parameter that requires
    one. *)
Definition accumulate (g : option Tensor) (p : Param) : Param :=
  match requires_grad p, g with
  | true, Some g =>
      mkParam (p_data p)
        (Some (match p_grad p with None => g | Some g0 => tensor_add g0 g end))
        (requires_grad p) (require_grad p)
  | _, _ => p
  end.

(** [loss.backward()] *)
Definition backward (l : Loss) : M unit :=
  modify (fun st =>
    set_heap
      (alter (fun m =>
                mkModule
                  (map_imap (fun n p => Some (accumulate (loss_grads l !! n) p))
                     (named_parameters m))
                  (buffers m))
         (loss_owner l) (heap st)) st).

(** In-place change of the parameter object a reference denotes. *)
Definition update_param (f : Param -> Param)
    (h : gmap loc Module) (r : loc * string) : gmap loc Module :=
  alter (fun m => mkModule (alter f r.2 (named_parameters m)) (buffers m)) r.1 h.

Definition zero_param (p : Param) : Param :=
  match p_grad p with
  | None => p
  | Some g => mkParam (p_data p) (Some (zeros_like g)) (requires_grad p) (require_grad p)
  end.

Definition sgd_param (rate : float) (p : Param) : Param :=
  match p_grad p with
  | None => p
  | Some g => mkParam (sgd_update rate (p_data p) g) (p_grad p)
                (requires_grad p) (require_grad p)
  end.

(** [optimizer.zero_grad()], which zeroes the gradients that exist in
    place (the framework version of the notebooks). *)
Definition zero_grad (optimizer : SGD) : M unit :=
  modify (fun st =>
    set_heap (fold_left (update_param zero_param) (param_group optimizer) (heap st)) st).

(** [optimizer.step()] *)
Definition step (optimizer : SGD) : M unit :=
  modify (fun st =>
    set_heap (fold_left (update_param (sgd_param (lr optimizer)))
                (param_group optimizer) (heap st)) st).

(** [model.state_dict()] *)
Definition state_dict (model : loc) : M StateDict :=
  fun st =>
    match heap st !! model with
    | None => Raise NoSuchObject
    | Some m => Ok ((tensors m, buffers m), st)
    end.

(** [torch.save(sd, path)] *)
Definition torch_save (sd : StateDict) (path : string) : M unit :=
  modify (fun st => add_effect (TorchSave path sd) (set_files (<[path := sd]> (files st)) st)).

(** Starting a [for] loop over a loader. *)
Definition iterate (loader : DataLoader) : M (list (Data * Target)) :=
  fun st => let r := batches loader (world st) in Ok (r.1, set_world r.2 st).

(** [enumerate(l)] and [range(a, b)] *)
Fixpoint enumerate_from {A} (i : Z) (l : list A) : list (Z * A) :=
  match l with
  | [] => []
  | a :: l' => (i, a) :: enumerate_from (i + 1) l'
  end.

Definition enumerate {A} (l : list A) : list (Z * A) := enumerate_from 0 l.

Definition range (a b : Z) : list Z :=
  map (fun k => a + Z.of_nat k) (seq 0 (Z.to_nat (b - a))).

(** [if use_cuda: data, target = data.cuda(), target.cuda()] *)
Definition move (use_cuda : bool) (b : Data * Target) : Data * Target :=
  if use_cuda then (cuda_data b.1, cuda_target b.2) else b.

End Primitives.

(** ** The notebooks' functions *)

Section Notebook.

Context {F : Framework}.

(** Body of the training loop of [train]. *)
Definition train_batch (loaders : Loaders) (model : loc) (optimizer : SGD)
    (criterion : Criterion) (use_cuda : bool)
    (train_loss : float) (ib : Z * (Data * Target)) : M float :=
  let batch_idx := ib.1 in
  let b := move use_cuda ib.2 in
  let data := b.1 in
  let target := b.2 in
  zero_grad optimizer ;;
  output <- call model data ;;
  let loss := apply_criterion criterion output target in
  backward loss ;;
  step optimizer ;;
  let train_loss := PrimFloat.add train_loss (mul_int (item loss) (size0 data)) in
  (if batch_idx mod 200 =? 0
   then print (PrintTrainingBatch batch_idx (loader_len (loader_train loaders)))
   else ret tt) ;;
  ret train_loss.

(** Body of the validation loop of [train]. *)
Definition valid_batch (loaders : Loaders) (model : loc)
    (criterion : Criterion) (use_cuda : bool)
    (valid_loss : float) (ib : Z * (Data * Target)) : M float :=
  let batch_idx := ib.1 in
  let b := move use_cuda ib.2 in
  let data := b.1 in
  let target := b.2 in
  output <- call model data ;;
  let loss := apply_criterion criterion output target in
  let valid_loss := PrimFloat.add valid_loss (mul_int (item loss) (size0 data)) in
  (if batch_idx mod 200 =? 0
   then print (PrintValidationBatch batch_idx (loader_len (loader_valid loaders)))
   else ret tt) ;;
  ret valid_loss.

(** The two inner loops of an epoch. *)
Definition train_phase loaders model optimizer criterion use_cuda : M float :=
  bs <- iterate (loader_train loaders) ;;
  for_each (train_batch loaders model optimizer criterion use_cuda)
    (enumerate bs) 0%float.

Definition valid_phase loaders model criterion use_cuda : M float :=
  bs <- iterate (loader_valid loaders) ;;
  for_each (valid_batch loaders model criterion use_cuda) (enumerate bs) 0%float.

(** The end of an epoch: the comparison with the running minimum and
    the save.  The result is the new [valid_loss_min]. *)
Definition checkpoint (model : loc) (save_path : string)
    (valid_loss_min valid_loss : float) : M float :=
  if le valid_loss valid_loss_min then
    print (PrintSaving valid_loss_min valid_loss) ;;
    sd <- state_dict model ;;
    torch_save sd save_path ;;
    ret valid_loss
  else ret valid_loss_min.

(** The first half of the body of the loop over epochs: both inner
    loops and the two divisions by the dataset sizes. *)
Definition epoch_losses (loaders : Loaders) (model : loc) (optimizer : SGD)
    (criterion : Criterion) (use_cuda : bool) : M (float * float) :=
  train_loss <- train_phase loaders model optimizer criterion use_cuda ;;
  valid_loss <- valid_phase loaders model criterion use_cuda ;;
  train_loss <- lift (div_int train_loss (dataset_len (loader_train loaders))) ;;
  valid_loss <- lift (div_int valid_loss (dataset_len (loader_valid loaders))) ;;
  ret (train_loss, valid_loss).

(** Body of the loop over epochs; [valid_loss_min] is the one variable
    that lives across epochs. *)
Definition train_epoch (loaders : Loaders) (model : loc) (optimizer : SGD)
    (criterion : Criterion) (use_cuda : bool) (save_path : string)
    (valid_loss_min : float) (epoch : Z) : M float :=
  r <- epoch_losses loaders model optimizer criterion use_cuda ;;
  print (PrintEpoch epoch r.1 r.2) ;;
  checkpoint model save_path valid_loss_min r.2.

(** [train(n_epochs, loaders, model, optimizer, criterion, use_cuda,
    save_path)]; the result is a reference, as in Python. *)
Definition train (n_epochs : Z) (loaders : Loaders) (model : loc)
    (optimizer : SGD) (criterion : Criterion) (use_cuda : bool)
    (save_path : string) : M loc :=
  let valid_loss_min := Inf in
  _ <- for_each (train_epoch loaders model optimizer criterion use_cuda save_path)
         (range 1 (n_epochs + 1)) valid_loss_min ;;
  ret model.

(** The loop of [train] stopped after [k] epochs: its result is the
    running minimum at that point. *)
Definition after_epochs (k : nat) (loaders : Loaders) (model : loc)
    (optimizer : SGD) (criterion : Criterion) (use_cuda : bool)
    (save_path : string) : M float :=
  for_each (train_epoch loaders model optimizer criterion use_cuda save_path)
    (range 1 (Z.of_nat k + 1)) Inf.

(** The number of positions at which prediction and label agree:
    [np.sum(np.squeeze(pred.eq(target.data.view_as(pred))).cpu().numpy())] *)
Fixpoint count_eq (pred target : list Z) : Z :=
  match pred, target with
  | p :: pred', t :: target' => (if p =? t then 1 else 0) + count_eq pred' target'
  | _, _ => 0
  end.

(** The three accumulators of [test].  [correct] starts as the Python
    float [0.] and is a numpy float64 once a numpy integer was added. *)
Record TestAcc : Type := mkTestAcc {
  test_loss : float;
  correct : float;
  correct_is_numpy : bool;
  total : float
}.

(** Body of the loop of [test]. *)
Definition test_batch (model : loc) (criterion : Criterion) (use_cuda : bool)
    (acc : TestAcc) (ib : Z * (Data * Target)) : M TestAcc :=
  let b := move use_cuda ib.2 in
  let data := b.1 in
  let target := b.2 in
  output <- call model data ;;
  let loss := apply_criterion criterion output target in
  let pred := max1 (out_value output) in
  ret (mkTestAcc
         (PrimFloat.add (test_loss acc) (mul_int (item loss) (size0 data)))
         (PrimFloat.add (correct acc) (float_of_int (count_eq pred (labels target))))
         true
         (PrimFloat.add (total acc) (float_of_int (size0 data)))).

(** [100. * correct / total]: a numpy float64 divides without raising. *)
Definition percentage (acc : TestAcc) : result float :=
  let x := PrimFloat.mul 100%float (correct acc) in
  if correct_is_numpy acc then Ok (PrimFloat.div x (total acc))
  else PyFloat.div x (total acc).

(** [test(loaders, model, criterion, use_cuda)] *)
Definition test (loaders : Loaders) (model : loc) (criterion : Criterion)
    (use_cuda : bool) : M unit :=
  bs <- iterate (loader_test loaders) ;;
  acc <- for_each (test_batch model criterion use_cuda) (enumerate bs)
           (mkTestAcc 0%float 0%float false 0%float) ;;
  mean <- lift (div_int (test_loss acc) (dataset_len (loader_test loaders))) ;;
  print (PrintTestLoss mean) ;;
  pct <- lift (percentage acc) ;;
  a <- lift (int_of_float pct) ;;
  b <- lift (int_of_float (correct acc)) ;;
  c <- lift (int_of_float (total acc)) ;;
  print (PrintTestAccuracy a b c).

(** *** The cells that set up the transfer-learning run *)

Definition is_classifier (name : string) : bool := String.prefix "classifier." name.
Definition is_features (name : string) : bool := String.prefix "features." name.

(** [model.features.parameters()] and [model.classifier.parameters()]:
    references to the parameters of a sub-module. *)
Definition submodule_parameters (sub : string -> bool) (model : loc)
  : M (list (loc * string)) :=
  fun st =>
    match heap st !! model with
    | None => Raise NoSuchObject
    | Some m =>
        Ok (map (fun n => (model, n))
              (filter (fun n => sub n = true) (map fst (map_to_list (named_parameters m)))),
            st)
    end.

(** [for param in model_transfer.features.parameters():
       param.require_grad = False] *)
Definition freeze_features (model_transfer : loc) : M unit :=
  ps <- submodule_parameters is_features model_transfer ;;
  modify (fun st =>
    set_heap
      (fold_left
         (update_param (fun p => mkParam (p_data p) (p_grad p) (requires_grad p) (Some false)))
         ps (heap st)) st).

(** [optim.SGD(params=..., lr=...)], which refuses an empty list. *)
Definition optim_SGD (params : list (loc * string)) (rate : float) : M SGD :=
  match params with
  | [] => lift (Raise ValueError)
  | _ => ret (mkSGD params rate)
  end.

(** [learning_rate = 0.01] in the transfer notebook: the binary64 value
    nearest to the decimal, as Python reads it. *)
Definition learning_rate : float := 0x1.47ae147ae147bp-7%float.

(** [optimizer_transfer =
       optim.SGD(params=model_transfer.classifier.parameters(), lr=learning_rate)] *)
Definition optimizer_transfer (model_transfer : loc) : M SGD :=
  ps <- submodule_parameters is_classifier model_transfer ;;
  optim_SGD ps learning_rate.

End Notebook.

(** ** The loops, observed batch by batch

    The same loops as in [train] and [test], with the same calls in the
    same order, but instead of adding to an accumulator they list what
    each batch contributed.  They are what the statements about the
    reported means are compared with. *)

Section Observed.

Context {F : Framework}.

(** A batch's loss ([loss.item()]) and its number of samples
    ([data.size(0)]). *)
Definition BatchRecord : Type := (float * Z)%type.

Definition observe_train_batch (loaders : Loaders) (model : loc) (optimizer : SGD)
    (criterion : Criterion) (use_cuda : bool)
    (seen : list BatchRecord) (ib : Z * (Data * Target)) : M (list BatchRecord) :=
  let b := move use_cuda ib.2 in
  zero_grad optimizer ;;
  output <- call model b.1 ;;
  let loss := apply_criterion criterion output b.2 in
  backward loss ;;
  step optimizer ;;
  (if ib.1 mod 200 =? 0
   then print (PrintTrainingBatch ib.1 (loader_len (loader_train loaders)))
   else ret tt) ;;
  ret (seen ++ [(item loss, size0 b.1)]).

Definition observe_valid_batch (loaders : Loaders) (model : loc)
    (criterion : Criterion) (use_cuda : bool)
    (seen : list BatchRecord) (ib : Z * (Data * Target)) : M (list BatchRecord) :=
  let b := move use_cuda ib.2 in
  output <- call model b.1 ;;
  let loss := apply_criterion criterion output b.2 in
  (if ib.1 mod 200 =? 0
   then print (PrintValidationBatch ib.1 (loader_len (loader_valid loaders)))
   else ret tt) ;;
  ret (seen ++ [(item loss, size0 b.1)]).

Definition observed_train_phase loaders model optimizer criterion use_cuda
  : M (list BatchRecord) :=
  bs <- iterate (loader_train loaders) ;;
  for_each (observe_train_batch loaders model optimizer criterion use_cuda)
    (enumerate bs) [].

Definition observed_valid_phase loaders model criterion use_cuda
  : M (list BatchRecord) :=
  bs <- iterate (loader_valid loaders) ;;
  for_each (observe_valid_batch loaders model criterion use_cuda) (enumerate bs) [].

(** For a test batch: its loss, its number of samples, and the number
    of its samples whose largest logit is at the label. *)
Definition observe_test_batch (model : loc) (criterion : Criterion) (use_cuda : bool)
    (seen : list (BatchRecord * Z)) (ib : Z * (Data * Target))
  : M (list (BatchRecord * Z)) :=
  let b := move use_cuda ib.2 in
  output <- call model b.1 ;;
  let loss := apply_criterion criterion output b.2 in
  ret (seen ++ [((item loss, size0 b.1),
                 count_eq (max1 (out_value output)) (labels b.2))]).

Definition observed_test_phase loaders model criterion use_cuda
  : M (list (BatchRecord * Z)) :=
  bs <- iterate (loader_test loaders) ;;
  for_each (observe_test_batch model criterion use_cuda) (enumerate bs) [].

(** The sum over the batches, in order and starting from [0.0], of
    loss times number of samples. *)
Definition weighted_sum (rs : list BatchRecord) : float :=
  fold_left (fun acc r => PrimFloat.add acc (mul_int r.1 r.2)) rs 0%float.

(** The sum, in order and starting from [0.0], of integers as floats. *)
Definition float_sum (ns : list Z) : float :=
  fold_left (fun acc n => PrimFloat.add acc (float_of_int n)) ns 0%float.

(** The [TorchSave] effects among a list of effects. *)
Definition saves (es : list Effect) : list (string * StateDict) :=
  flat_map (fun e => match e with TorchSave p sd => [(p, sd)] | _ => [] end) es.

(** The effects a computation added: those of [st'] beyond those of [st]. *)
Definition new_effects (st st' : State) : list Effect :=
  drop (length (effects st)) (effects st').

End Observed.

(** ** The network of the scratch notebook

    [cfg], [Net.make_layers], [Net.__init__] and [Net.forward].  A layer
    is recorded with the arguments the source gives it; [forward] is
    followed at the level of tensor shapes, each layer acting on a shape
    as the framework documents it (output size
    [(size + 2 * padding - kernel_size) / stride + 1], rounded down; a
    mismatch of channels or features, or an output size that is not
    positive, raises). *)

Module Scratch.

(** An entry of a configuration list: ['M'] or a number of channels. *)
Inductive cfg_entry : Type :=
| Pool
| Width (l : Z).

(** [cfg = [8, 'M', 16, 'M', 32, 'M', 64, 'M', 128, 'M']] *)
Definition cfg : list cfg_entry :=
  [Width 8; Pool; Width 16; Pool; Width 32; Pool; Width 64; Pool; Width 128; Pool].

Definition num_classes : Z := 133.

Inductive Layer : Type :=
| Conv2d (in_channels out_channels kernel_size padding : Z)
| BatchNorm2d (num_features : Z)
| ReLU
| MaxPool2d (kernel_size stride : Z)
| Linear (in_features out_features : Z)
| Dropout.

(** The loop of [make_layers], started with [in_channels]. *)
Fixpoint make_layers_from (in_channels : Z) (model_cfg : list cfg_entry) : list Layer :=
  match model_cfg with
  | [] => []
  | Pool :: rest => MaxPool2d 2 2 :: make_layers_from in_channels rest
  | Width l :: rest =>
      Conv2d in_channels l 3 1 :: BatchNorm2d l :: ReLU :: make_layers_from l rest
  end.

(** [make_layers(model_cfg)] *)
Definition make_layers (model_cfg : list cfg_entry) : list Layer :=
  make_layers_from 3 model_cfg.

Record Net : Type := mkNet {
  features : list Layer;
  classifier : list Layer
}.

(** [Net(model_cfg)] *)
Definition Net_init (model_cfg : list cfg_entry) : Net :=
  mkNet (make_layers model_cfg)
    [Linear (128 * 7 * 7) 4096; ReLU; Dropout;
     Linear 4096 1024; ReLU; Dropout;
     Linear 1024 num_classes].

(** The shape of a batch: [n] images of [c] channels and [h] by [w]
    pixels, or [n] rows of [d] numbers. *)
Inductive Shape : Type :=
| Images (n c h w : Z)
| Rows (n d : Z).

(** Output size of a convolution or pooling window along one axis. *)
Definition out_size (size kernel_size stride padding : Z) : Z :=
  (size + 2 * padding - kernel_size) / stride + 1.

(** What a layer makes of a batch of the given shape; [None] when it
    raises.  The modules are in training mode, where batch normalisation
    wants more than one value per channel. *)
Definition layer_shape (layer : Layer) (x : Shape) : option Shape :=
  match layer, x with
  | Conv2d cin cout k p, Images n c h w =>
      let h' := out_size h k 1 p in
      let w' := out_size w k 1 p in
      if (c =? cin) && (0 <? h') && (0 <? w') then Some (Images n cout h' w') else None
  | BatchNorm2d f, Images n c h w =>
      if (c =? f) && (1 <? n * h * w) then Some x else None
  | MaxPool2d k s, Images n c h w =>
      let h' := out_size h k s 0 in
      let w' := out_size w k s 0 in
      if (0 <? h') && (0 <? w') then Some (Images n c h' w') else None
  | Linear fin fout, Rows n d =>
      if d =? fin then Some (Rows n fout) else None
  | Linear fin fout, Images n c h w =>
      if w =? fin then Some (Images n c h fout) else None
  | ReLU, _ => Some x
  | Dropout, _ => Some x
  | _, Rows _ _ => None
  end.

(** The [nn.Sequential] of the layers, applied to [x]. *)
Fixpoint sequential_shape (layers : list Layer) (x : Shape) : option Shape :=
  match layers with
  | [] => Some x
  | layer :: rest =>
      match layer_shape layer x with
      | Some y => sequential_shape rest y
      | None => None
      end
  end.

(** [x.view(x.size(0), -1)] *)
Definition view_rows (x : Shape) : option Shape :=
  match x with
  | Images n c h w => if n =? 0 then None else Some (Rows n (c * h * w))
  | Rows n d => if n =? 0 then None else Some (Rows n d)
  end.

(** [Net.forward(x)] *)
Definition forward (net : Net) (x : Shape) : option Shape :=
  match sequential_shape (features net) x with
  | Some x1 =>
      match view_rows x1 with
      | Some x2 => sequential_shape (classifier net) x2
      | None => None
      end
  | None => None
  end.

(** The number of ['M'] entries, and the number of channels after the
    last entry (the [in_channels] the loop ends with). *)
Fixpoint pools (model_cfg : list cfg_entry) : nat :=
  match model_cfg with
  | [] => 0
  | Pool :: rest => S (pools rest)
  | Width _ :: rest => pools rest
  end.

Fixpoint last_width (in_channels : Z) (model_cfg : list cfg_entry) : Z :=
  match model_cfg with
  | [] => in_channels
  | Pool :: rest => last_width in_channels rest
  | Width l :: rest => last_width l rest
  end.

(** Every number of channels in the configuration is positive, so that
    the layers can be built. *)
Definition positive_widths (model_cfg : list cfg_entry) : bool :=
  forallb (fun e => match e with Pool => true | Width l => 0 <? l end) model_cfg.

End Scratch.

(** ** Loading the saved model

    The cell [model.load_state_dict(torch.load(save_path))] that both
    notebooks run between [train] and [test]. *)

Section Loading.

Context {F : Framework}.

(** How the cell ends.  [NoModel] is not a Python outcome (see
    [NoSuchObject]). *)
Inductive LoadOutcome : Type :=
| Loaded (st : State)
| FileNotFoundError
| KeyMismatch
| NoModel.

(** [torch.load(path)] *)
Definition torch_load (path : string) (st : State) : option StateDict :=
  files st !! path.

(** Copying a saved value into a parameter object: the object, its
    gradient and its flags stay. *)
Definition load_param (saved : gmap string Tensor) (name : string) (p : Param) : Param :=
  match saved !! name with
  | Some v => mkParam v (p_grad p) (requires_grad p) (require_grad p)
  | None => p
  end.

(** [model.load_state_dict(sd)] with the default [strict=True]: the names
    saved must be the names of the model's parameters. *)
Definition load_state_dict (model : loc) (sd : StateDict) (st : State) : LoadOutcome :=
  match heap st !! model with
  | None => NoModel
  | Some m =>
      if decide (dom sd.1 = dom (named_parameters m)) then
        Loaded (set_heap
                  (<[model := mkModule
                                (map_imap (fun n p => Some (load_param sd.1 n p))
                                   (named_parameters m))
                                sd.2]> (heap st)) st)
      else KeyMismatch
  end.

(** [model.load_state_dict(torch.load(path))] *)
Definition load_checkpoint (model : loc) (path : string) (st : State) : LoadOutcome :=
  match torch_load path st with
  | None => FileNotFoundError
  | Some sd => load_state_dict model sd st
  end.

(** The epoch numbers of the epoch lines among some effects. *)
Definition epoch_numbers (es : list Effect) : list Z :=
  flat_map (fun e => match e with PrintEpoch k _ _ => [k] | _ => [] end) es.

(** The indices below [n] at which the inner loops print a progress
    line. *)
Definition progress_indices (n : nat) : list Z :=
  List.filter (fun i => i mod 200 =? 0) (range 0 (Z.of_nat n)).

(** Every module has the parameter names it had. *)
Definition same_names (st st' : State) : Prop :=
  forall l n, is_Some (param_at st' l n) <-> is_Some (param_at st l n).

(** The attribute the "freeze" cell sets. *)
Definition set_require_grad (p : Param) : Param :=
  mkParam (p_data p) (p_grad p) (requires_grad p) (Some false).

End Loading.

(** ** Properties of computations and of pairs of states

    The vocabulary of the statements below: what a computation leaves
    unchanged between the state it starts from and the state it ends in,
    when it returns, and what an epoch of a run computes. *)

Section Predicates.

Context {F : Framework}.

(** [m] relates the state it starts from to the state it ends in. *)
Definition respects (R : State -> State -> Prop) {A} (m : M A) : Prop :=
  forall st a st', m st = Ok (a, st') -> R st st'.

(** [m] returns a value whenever it starts in a state where [P] holds,
    and [P] holds again where it ends. *)
Definition succeeds (P : State -> Prop) {A} (m : M A) : Prop :=
  forall st, P st -> exists a st', m st = Ok (a, st') /\ P st'.

(** The store holds the same objects. *)
Definition same_objects (st st' : State) : Prop :=
  forall l, is_Some (heap st' !! l) <-> is_Some (heap st !! l).

(** No file was written: the files are the same and the effects added
    contain no save. *)
Definition quiet (st st' : State) : Prop :=
  files st' = files st /\
  exists es, effects st' = effects st ++ es /\ saves es = [].

(** Every parameter object is as it was: value, gradient and flags. *)
Definition same_params (st st' : State) : Prop :=
  forall l n, param_at st' l n = param_at st l n.

(** Every parameter not referenced from [G] has the value it had. *)
Definition same_data_outside (G : list (loc * string)) (st st' : State) : Prop :=
  forall l n, (l, n) ∉ G -> p_data <$> param_at st' l n = p_data <$> param_at st l n.

Definition calm (st st' : State) : Prop :=
  same_params st st' /\ same_objects st st' /\ quiet st st'.

Definition training (G : list (loc * string)) (st st' : State) : Prop :=
  same_data_outside G st st' /\ same_objects st st' /\ quiet st st'.

(** Values outside [G] are kept, the store holds the same objects, no file
    other than [path] is touched and every save goes to [path]. *)
Definition run_frame (G : list (loc * string)) (path : string) (st st' : State) : Prop :=
  same_data_outside G st st' /\
  same_objects st st' /\
  (forall p, p <> path -> files st' !! p = files st !! p) /\
  exists es, effects st' = effects st ++ es /\
             Forall (fun s => s.1 = path) (saves es).

(** What one test batch adds to the accumulators. *)
Definition add_test_record (acc : TestAcc) (r : BatchRecord * Z) : TestAcc :=
  mkTestAcc (PrimFloat.add (test_loss acc) (mul_int r.1.1 r.1.2))
            (PrimFloat.add (correct acc) (float_of_int r.2))
            true
            (PrimFloat.add (total acc) (float_of_int r.1.2)).

Section OfRun.

Variables (loaders : Loaders) (model : loc) (optimizer : SGD)
          (criterion : Criterion) (use_cuda : bool) (save_path : string).

(** The handle [model] denotes an object of the store. *)
Definition live (st : State) : Prop := is_Some (heap st !! model).

(** The state an epoch ends in when it saves: the line of the epoch, the
    saving notice and the file. *)
Definition saved_state (epoch : Z) (vmin tl vl : float) (sd : StateDict)
    (st1 : State) : State :=
  mkState (heap st1) (world st1) (<[save_path := sd]> (files st1))
    (((effects st1 ++ [PrintEpoch epoch tl vl]) ++ [PrintSaving vmin vl])
       ++ [TorchSave save_path sd]).

(** In the run started in [st0], epoch number [e] (from 1) computes the
    mean validation loss [vl]. *)
Definition epoch_valid_loss (e : nat) (st0 : State) (vl : float) : Prop :=
  exists vmin st tl s,
    (0 < e)%nat /\
    after_epochs (e - 1) loaders model optimizer criterion use_cuda save_path st0
      = Ok (vmin, st) /\
    epoch_losses loaders model optimizer criterion use_cuda st = Ok ((tl, vl), s).

(** In the run started in [st0], the model's [state_dict()] at the end of
    epoch number [e] is [sd]. *)
Definition epoch_state_dict (e : nat) (st0 : State) (sd : StateDict) : Prop :=
  exists vmin st,
    after_epochs e loaders model optimizer criterion use_cuda save_path st0 = Ok (vmin, st) /\
    state_dict model st = Ok (sd, st).

(** The checkpoint after [k] epochs: either every loss so far was a NaN
    and the file is what it was, or the file holds the state of an epoch
    whose loss is the running minimum and is least among the losses that
    are not NaN. *)
Definition best_so_far (k : nat) (st0 : State) (vmin : float) (stk : State) : Prop :=
  (vmin = Inf /\
   files stk !! save_path = files st0 !! save_path /\
   forall e vl, (1 <= e <= k)%nat -> epoch_valid_loss e st0 vl -> PrimFloat.is_nan vl = true)
  \/
  (exists e vl sd,
     (1 <= e <= k)%nat /\ epoch_valid_loss e st0 vl /\ epoch_state_dict e st0 sd /\
     PrimFloat.is_nan vl = false /\
     files stk !! save_path = Some sd /\ vmin = vl /\
     forall e' vl', (1 <= e' <= k)%nat -> epoch_valid_loss e' st0 vl' ->
                    PrimFloat.is_nan vl' = false -> le vl vl' = true).

End OfRun.

End Predicates.

(** ** A small concrete framework

    Used to run the functions above on concrete inputs.  A batch carries
    the loss and the predictions the model will produce for it; a tensor
    is one integer, every gradient is 1 and a step subtracts it; the
    buffers count the forward passes; the generator state counts the
    passes over the validation loader. *)

Module Toy.

Record batch : Type := mkBatch {
  b_size : Z;
  b_loss : float;
  b_pred : list Z
}.

#[export] Instance framework : Framework := {|
  Tensor := Z;
  Data := batch;
  Target := list Z;
  Output := float * list Z;
  Buffers := Z;
  World := nat;
  Criterion := unit;
  size0 := b_size;
  cuda_data := fun d => d;
  cuda_target := fun t => t;
  forward := fun w _ b d => ((b_loss d, b_pred d), b + 1, w);
  loss_item := fun _ o _ => o.1;
  autograd := fun _ _ ps _ _ _ => (fun _ => 1) <$> ps;
  tensor_add := Z.add;
  zeros_like := fun _ => 0;
  sgd_update := fun _ p g => p - g;
  max1 := fun o => o.2;
  labels := fun t => t
|}.

(** One batch of two samples with the given loss; the model is right on
    the first sample and wrong on the second. *)
Definition one_batch (loss : float) : list (batch * list Z) :=
  [(mkBatch 2 loss [0; 1], [0; 0])].

(** A loader over a dataset of two samples that yields [one_batch 1]. *)
Definition loader : DataLoader :=
  mkLoader 2 1 (fun w => (one_batch 1%float, w)).

(** A validation loader whose batch has loss [nth k vs 0] on the pass
    number [k]. *)
Definition valid_loader (vs : list float) : DataLoader :=
  mkLoader 2 1 (fun w => (one_batch (nth w vs 0%float), S w)).

(** Loaders for a run whose validation losses are [vs], epoch by epoch. *)
Definition loaders (vs : list float) : Loaders :=
  mkLoaders loader (valid_loader vs) loader.

(** A module with one feature weight and one classifier weight. *)
Definition net : Module :=
  mkModule
    (<["features.0.weight" := mkParam 10 None true None]>
       (<["classifier.6.weight" := mkParam 20 None true None]> ∅))
    0.

Definition model : loc := 1%positive.

Definition init : State := mkState (<[model := net]> ∅) 0%nat ∅ [].

(** An optimizer over every parameter of [model], as in the scratch
    notebook ([optim.SGD(params=model_scratch.parameters(), lr=0.05)]). *)
Definition optimizer_scratch : SGD :=
  mkSGD [(model, "features.0.weight"); (model, "classifier.6.weight")]
    0x1.999999999999ap-5%float.

(** The optimizer of the transfer notebook for [model]. *)
Definition optimizer_classifier : SGD :=
  mkSGD [(model, "classifier.6.weight")] learning_rate.

Definition save_path : string := "model_scratch.pt".

(** The loop of [train] after [k] epochs with validation losses [vs]. *)
Definition epochs (vs : list float) (k : nat) : M float :=
  after_epochs k (loaders vs) model optimizer_scratch tt true save_path.

Definition losses (vs : list float) : M (float * float) :=
  epoch_losses (loaders vs) model optimizer_scratch tt true.

(** The state a computation ends in and the value it returns (the
    given ones if it raises). *)
Definition final {A} (m : M A) (st : State) : State :=
  match m st with Ok r => r.2 | Raise _ => st end.

Definition value {A} (d : A) (m : M A) (st : State) : A :=
  match m st with Ok r => r.1 | Raise _ => d end.

(** Whether a computation returns. *)
Definition returns {A} (m : M A) (st : State) : bool :=
  match m st with Ok _ => true | Raise _ => false end.

(** A loader over an empty dataset: it yields no batch. *)
Definition empty_loader : DataLoader :=
  mkLoader 0 0 (fun w => ([], w)).

(** Loaders whose validation folder is empty. *)
Definition loaders_no_valid : Loaders :=
  mkLoaders loader empty_loader loader.

(** Loaders whose test folder is empty. *)
Definition loaders_no_test : Loaders :=
  mkLoaders loader loader empty_loader.



End Toy.

(** Closes an equation between closed terms by evaluating both sides. *)
Ltac by_evaluation :=
  lazymatch goal with
  | |- @eq ?T ?a ?b => vm_cast_no_check (@eq_refl T b)
  end.

(** Splits a conjunction of equations and evaluates each. *)
Ltac all_by_evaluation :=
  repeat lazymatch goal with |- _ /\ _ => split end; by_evaluation.

(** A toy computation that returns, returns its value and its final state. *)
Lemma toy_run {A} (d : A) (m : M A) (st : State) (v : A) :
  Toy.returns m st = true -> Toy.value d m st = v -> m st = Ok (v, Toy.final m st).
Proof.
  unfold Toy.returns, Toy.value, Toy.final. destruct (m st) as [[a st']|e].
  - intros _ <-. reflexivity.
  - discriminate.
Qed.

Ltac toy_run d := apply (toy_run d); by_evaluation.

(** *** Order facts about [<=] on binary64 values

    [PrimFloat.leb] is specified by [SFleb] on the decoded value; the
    comparison is a total preorder away from NaN. *)

Section FloatOrder.

Lemma Prim2SF_nan (x : float) :
  PrimFloat.is_nan x = false -> Prim2SF x <> S754_nan.
Proof.
  intros Hx. unfold Prim2SF. rewrite Hx.
  destruct (PrimFloat.is_zero x); [discriminate|].
  destruct (PrimFloat.is_infinity x); [discriminate|].
  destruct (Z.frexp x) as [r ex].
  destruct (shr_fexp _ _ _ _ _) as [sh e'].
  destruct (shr_m sh); discriminate.
Qed.

Lemma Prim2SF_is_nan (x : float) :
  PrimFloat.is_nan x = true -> Prim2SF x = S754_nan.
Proof. intros Hx. unfold Prim2SF. now rewrite Hx. Qed.

Lemma SFleb_nan_l (y : spec_float) : SFleb S754_nan y = false.
Proof. reflexivity. Qed.

Lemma SFleb_nan_r (x : spec_float) : SFleb x S754_nan = false.
Proof. destruct x; reflexivity. Qed.

Lemma SFleb_infinity (x : spec_float) :
  x <> S754_nan -> SFleb x (S754_infinity false) = true.
Proof. destruct x as [ | [|] | |]; intros H; try reflexivity; congruence. Qed.

Local Ltac cmp_cases :=
  repeat match goal with
    | |- context [Z.compare ?a ?b] =>
        destruct (Z.compare_spec a b); subst
    | |- context [Pos.compare_cont Eq ?a ?b] =>
        change (Pos.compare_cont Eq a b) with (Pos.compare a b);
        destruct (Pos.compare_spec a b); subst
    | H : context [Z.compare ?a ?b] |- _ =>
        destruct (Z.compare_spec a b); subst
    | H : context [Pos.compare_cont Eq ?a ?b] |- _ =>
        change (Pos.compare_cont Eq a b) with (Pos.compare a b) in H;
        destruct (Pos.compare_spec a b); subst
    end.

Lemma SFleb_total (x y : spec_float) :
  x <> S754_nan -> y <> S754_nan -> SFleb x y = true \/ SFleb y x = true.
Proof.
  intros Hx Hy.
  destruct x as [[|] | [|] | | [|] m1 e1], y as [[|] | [|] | | [|] m2 e2];
    try congruence; cbn; auto;
    unfold SFleb, SFcompare; cmp_cases; cbn; auto; lia.
Qed.

Lemma SFleb_trans (x y z : spec_float) :
  SFleb x y = true -> SFleb y z = true -> SFleb x z = true.
Proof.
  destruct x as [[|] | [|] | | [|] m1 e1], y as [[|] | [|] | | [|] m2 e2],
    z as [[|] | [|] | | [|] m3 e3];
    cbn; try congruence;
    unfold SFleb, SFcompare; intros H1 H2; cmp_cases; cbn in *;
    try congruence; try lia.
Qed.

Lemma le_nan_l (x y : float) : PrimFloat.is_nan x = true -> le x y = false.
Proof.
  intros Hx. unfold le. rewrite FloatAxioms.leb_spec, (Prim2SF_is_nan x Hx).
  apply SFleb_nan_l.
Qed.

Lemma le_not_nan (x y : float) :
  le x y = true -> PrimFloat.is_nan x = false /\ PrimFloat.is_nan y = false.
Proof.
  unfold le. rewrite FloatAxioms.leb_spec. intros H. split.
  - destruct (PrimFloat.is_nan x) eqn:E; [|reflexivity].
    rewrite (Prim2SF_is_nan x E) in H. discriminate.
  - destruct (PrimFloat.is_nan y) eqn:E; [|reflexivity].
    rewrite (Prim2SF_is_nan y E), SFleb_nan_r in H. discriminate.
Qed.

Lemma le_Inf (x : float) : PrimFloat.is_nan x = false -> le x Inf = true.
Proof.
  intros Hx. unfold le, Inf. rewrite FloatAxioms.leb_spec.
  change (Prim2SF infinity) with (S754_infinity false).
  apply SFleb_infinity, Prim2SF_nan, Hx.
Qed.

Lemma le_total (x y : float) :
  PrimFloat.is_nan x = false -> PrimFloat.is_nan y = false ->
  le x y = true \/ le y x = true.
Proof.
  intros Hx Hy. unfold le. rewrite !FloatAxioms.leb_spec.
  apply SFleb_total; apply Prim2SF_nan; assumption.
Qed.

Lemma le_trans (x y z : float) :
  le x y = true -> le y z = true -> le x z = true.
Proof. unfold le. rewrite !FloatAxioms.leb_spec. apply SFleb_trans. Qed.

Lemma le_refl (x : float) : PrimFloat.is_nan x = false -> le x x = true.
Proof. intros Hx. destruct (le_total x x Hx Hx); assumption. Qed.

End FloatOrder.

(** ** Reasoning about the monad *)

Section MonadFacts.

Context {F : Framework}.

Lemma bind_Ok {A B} (m : M A) (k : A -> M B) (st : State) (r : B * State) :
  bind m k st = Ok r <->
  exists a st1, m st = Ok (a, st1) /\ k a st1 = Ok r.
Proof.
  unfold bind. split.
  - destruct (m st) as [[a st1]|e]; [|discriminate]. eauto.
  - intros (a & st1 & -> & Hk). exact Hk.
Qed.

Lemma lift_Ok {A} (r : result A) (st : State) (a : A) (st' : State) :
  lift r st = Ok (a, st') <-> r = Ok a /\ st' = st.
Proof.
  unfold lift. destruct r; split.
  - intros [= -> ->]. auto.
  - intros [[= ->] ->]. reflexivity.
  - discriminate.
  - intros [[=] _].
Qed.

Lemma for_each_app {A S} (body : S -> A -> M S) (l1 l2 : list A) (s : S) (st : State) :
  for_each body (l1 ++ l2) s st = bind (for_each body l1 s) (for_each body l2) st.
Proof.
  revert s st. induction l1 as [|a l1 IH]; intros s st; cbn.
  - reflexivity.
  - unfold bind in *. destruct (body s a st) as [[s1 st1]|e]; [|reflexivity].
    apply IH.
Qed.

Section Rules.

Variable R : State -> State -> Prop.
Hypothesis R_refl : forall st, R st st.
Hypothesis R_trans : forall st1 st2 st3, R st1 st2 -> R st2 st3 -> R st1 st3.

Lemma respects_ret {A} (a : A) : respects R (ret a).
Proof. intros st b st' [= _ <-]. apply R_refl. Qed.

Lemma respects_lift {A} (r : result A) : respects R (lift r).
Proof. intros st b st' H. apply lift_Ok in H as [_ ->]. apply R_refl. Qed.

Lemma respects_bind {A B} (m : M A) (k : A -> M B) :
  respects R m -> (forall a, respects R (k a)) -> respects R (bind m k).
Proof.
  intros Hm Hk st b st' H. apply bind_Ok in H as (a & st1 & H1 & H2).
  eapply R_trans; [eapply Hm | eapply Hk]; eassumption.
Qed.

Lemma respects_modify (f : State -> State) :
  (forall st, R st (f st)) -> respects R (modify f).
Proof. intros Hf st [] st' [= <-]. apply Hf. Qed.

Lemma respects_for_each {A S} (body : S -> A -> M S) (l : list A) (s : S) :
  (forall s a, respects R (body s a)) -> respects R (for_each body l s).
Proof.
  intros Hb. revert s. induction l as [|a l IH]; intros s; cbn.
  - apply respects_ret.
  - apply respects_bind; [apply Hb | apply IH].
Qed.

End Rules.

Lemma succeeds_ret (P : State -> Prop) {A} (a : A) : succeeds P (ret a).
Proof. intros st H. exists a, st. split; [reflexivity | exact H]. Qed.

Lemma succeeds_bind (P : State -> Prop) {A B} (m : M A) (k : A -> M B) :
  succeeds P m -> (forall a, succeeds P (k a)) -> succeeds P (bind m k).
Proof.
  intros Hm Hk st H. destruct (Hm st H) as (a & st1 & H1 & HP1).
  destruct (Hk a st1 HP1) as (b & st2 & H2 & HP2).
  exists b, st2. split; [|exact HP2]. apply bind_Ok. eauto.
Qed.

Lemma succeeds_modify (P : State -> Prop) (f : State -> State) :
  (forall st, P st -> P (f st)) -> succeeds P (modify f).
Proof. intros Hf st H. exists tt, (f st). split; [reflexivity | auto]. Qed.

Lemma succeeds_for_each (P : State -> Prop) {A S} (body : S -> A -> M S)
    (l : list A) (s : S) :
  (forall s a, succeeds P (body s a)) -> succeeds P (for_each body l s).
Proof.
  intros Hb. revert s. induction l as [|a l IH]; intros s; cbn.
  - apply succeeds_ret.
  - apply succeeds_bind; [apply Hb | apply IH].
Qed.

End MonadFacts.

(** ** What the framework calls leave unchanged *)

Section Frames.

Context {F : Framework}.

Lemma quiet_refl st : quiet st st.
Proof. split; [reflexivity|]. exists []. split; [symmetry; apply app_nil_r | reflexivity]. Qed.

Lemma saves_app (es1 es2 : list Effect) : saves (es1 ++ es2) = saves es1 ++ saves es2.
Proof. unfold saves. apply flat_map_app. Qed.

Lemma quiet_trans st1 st2 st3 : quiet st1 st2 -> quiet st2 st3 -> quiet st1 st3.
Proof.
  intros [Hf1 (es1 & He1 & Hs1)] [Hf2 (es2 & He2 & Hs2)]. split; [congruence|].
  exists (es1 ++ es2). split.
  - rewrite He2, He1. symmetry. apply app_assoc.
  - rewrite saves_app, Hs1, Hs2. reflexivity.
Qed.

Lemma same_objects_refl st : same_objects st st.
Proof. intros l. reflexivity. Qed.

Lemma same_objects_trans st1 st2 st3 :
  same_objects st1 st2 -> same_objects st2 st3 -> same_objects st1 st3.
Proof. intros H1 H2 l. etransitivity; [apply H2 | apply H1]. Qed.

Lemma calm_refl st : calm st st.
Proof. repeat split; [apply same_objects_refl .. | apply quiet_refl]. Qed.

Lemma calm_trans st1 st2 st3 : calm st1 st2 -> calm st2 st3 -> calm st1 st3.
Proof.
  intros (Hp1 & Ho1 & Hq1) (Hp2 & Ho2 & Hq2). split; [|split].
  - intros l n. rewrite Hp2. apply Hp1.
  - eapply same_objects_trans; eassumption.
  - eapply quiet_trans; eassumption.
Qed.

Lemma training_refl G st : training G st st.
Proof. split; [|split]; [intros l n _; reflexivity | apply same_objects_refl | apply quiet_refl]. Qed.

Lemma training_trans G st1 st2 st3 :
  training G st1 st2 -> training G st2 st3 -> training G st1 st3.
Proof.
  intros (Hp1 & Ho1 & Hq1) (Hp2 & Ho2 & Hq2). split; [|split].
  - intros l n Hn. rewrite (Hp2 l n Hn). apply Hp1, Hn.
  - eapply same_objects_trans; eassumption.
  - eapply quiet_trans; eassumption.
Qed.

Lemma calm_training G st st' : calm st st' -> training G st st'.
Proof.
  intros (Hp & Ho & Hq). split; [|split]; [|assumption..].
  intros l n _. rewrite (Hp l n). reflexivity.
Qed.

Lemma respects_weaken (R R' : State -> State -> Prop) {A} (m : M A) :
  (forall st st', R st st' -> R' st st') -> respects R m -> respects R' m.
Proof. intros HR Hm st a st' H. apply HR. eapply Hm, H. Qed.

Lemma quiet_same st st' :
  files st' = files st -> effects st' = effects st -> quiet st st'.
Proof.
  intros Hf He. split; [exact Hf|]. exists []. split; [|reflexivity].
  rewrite He. symmetry. apply app_nil_r.
Qed.

Lemma same_objects_same st st' : heap st' = heap st -> same_objects st st'.
Proof. intros H l. rewrite H. reflexivity. Qed.

Lemma same_params_same st st' : heap st' = heap st -> same_params st st'.
Proof. intros H l n. unfold param_at. rewrite H. reflexivity. Qed.

(** *** The calls that read the parameters *)

Lemma print_calm (e : Effect) : saves [e] = [] -> respects calm (print e).
Proof.
  intros He st [] st' [= <-]. split; [|split].
  - apply same_params_same. reflexivity.
  - apply same_objects_same. reflexivity.
  - split; [reflexivity|]. exists [e]. split; [reflexivity | exact He].
Qed.

Lemma iterate_calm (loader : DataLoader) : respects calm (iterate loader).
Proof.
  intros st bs st' [= _ <-]. split; [|split].
  - apply same_params_same. reflexivity.
  - apply same_objects_same. reflexivity.
  - apply quiet_same; reflexivity.
Qed.

Lemma call_calm (model : loc) (data : Data) : respects calm (call model data).
Proof.
  intros st o st' H. unfold call in H.
  destruct (heap st !! model) as [m|] eqn:Hm; [|discriminate].
  injection H as _ <-. split; [|split].
  - intros l n. unfold param_at, heap_param. cbn.
    destruct (decide (model = l)) as [->|Hne].
    + rewrite lookup_insert_eq, Hm. reflexivity.
    + rewrite lookup_insert_ne by exact Hne. reflexivity.
  - intros l. cbn. rewrite lookup_insert_is_Some'. split; [|auto].
    intros [<-|H]; [rewrite Hm; eauto | exact H].
  - apply quiet_same; reflexivity.
Qed.

Lemma state_dict_calm (model : loc) : respects calm (state_dict model).
Proof.
  intros st sd st' H. unfold state_dict in H.
  destruct (heap st !! model); [|discriminate]. injection H as _ <-. apply calm_refl.
Qed.

End Frames.

(** ** What a training step changes *)

Section Training.

Context {F : Framework}.

Lemma heap_param_update (f : Param -> Param) (h : gmap loc Module)
    (r : loc * string) (l : loc) (n : string) :
  heap_param (update_param f h r) l n =
  if decide (r = (l, n)) then f <$> heap_param h l n else heap_param h l n.
Proof.
  destruct r as [l0 n0]. unfold update_param, heap_param. cbn.
  rewrite lookup_alter. destruct (decide (l0 = l)) as [->|Hl].
  - destruct (h !! l) as [m|]; cbn.
    + rewrite lookup_alter. destruct (decide (n0 = n)) as [->|Hn].
      * rewrite decide_True by reflexivity. reflexivity.
      * rewrite decide_False by congruence. reflexivity.
    + destruct (decide _); reflexivity.
  - rewrite decide_False by congruence. reflexivity.
Qed.

Lemma update_param_objects (f : Param -> Param) (h : gmap loc Module)
    (r : loc * string) (l : loc) :
  is_Some (update_param f h r !! l) <-> is_Some (h !! l).
Proof. unfold update_param. apply lookup_alter_is_Some. Qed.

Lemma fold_update_objects (f : Param -> Param) (G : list (loc * string))
    (h : gmap loc Module) (l : loc) :
  is_Some (fold_left (update_param f) G h !! l) <-> is_Some (h !! l).
Proof.
  revert h. induction G as [|r G IH]; intros h; cbn; [reflexivity|].
  rewrite IH. apply update_param_objects.
Qed.

Lemma fold_update_outside (f : Param -> Param) (G : list (loc * string))
    (h : gmap loc Module) (l : loc) (n : string) :
  (l, n) ∉ G ->
  heap_param (fold_left (update_param f) G h) l n = heap_param h l n.
Proof.
  revert h. induction G as [|r G IH]; intros h Hn; cbn; [reflexivity|].
  apply not_elem_of_cons in Hn as [Hne Hn].
  rewrite IH by exact Hn. rewrite heap_param_update.
  rewrite decide_False by congruence. reflexivity.
Qed.

Lemma fold_update_data (f : Param -> Param) (G : list (loc * string))
    (h : gmap loc Module) (l : loc) (n : string) :
  (forall p, p_data (f p) = p_data p) ->
  p_data <$> heap_param (fold_left (update_param f) G h) l n =
  p_data <$> heap_param h l n.
Proof.
  intros Hf. revert h. induction G as [|r G IH]; intros h; cbn; [reflexivity|].
  rewrite IH, heap_param_update. destruct (decide _); [|reflexivity].
  destruct (heap_param h l n); cbn; [|reflexivity]. rewrite Hf. reflexivity.
Qed.

Lemma zero_param_data (p : Param) : p_data (zero_param p) = p_data p.
Proof. unfold zero_param. destruct (p_grad p); reflexivity. Qed.

Lemma accumulate_data (g : option Tensor) (p : Param) :
  p_data (accumulate g p) = p_data p.
Proof. unfold accumulate. destruct (requires_grad p), g; reflexivity. Qed.

(** [optimizer.zero_grad()] changes no value. *)
Lemma zero_grad_training (optimizer : SGD) (G : list (loc * string)) :
  respects (training G) (zero_grad optimizer).
Proof.
  intros st [] st' [= <-]. split; [|split].
  - intros l n _. unfold param_at. cbn. apply fold_update_data, zero_param_data.
  - intros l. cbn. apply fold_update_objects.
  - apply quiet_same; reflexivity.
Qed.

(** [loss.backward()] changes no value. *)
Lemma backward_training (loss : Loss) (G : list (loc * string)) :
  respects (training G) (backward loss).
Proof.
  intros st [] st' [= <-]. split; [|split].
  - intros l n _. unfold param_at, heap_param. cbn.
    rewrite lookup_alter. destruct (decide (loss_owner loss = l)) as [->|Hl]; [|reflexivity].
    destruct (heap st !! l) as [m|]; cbn; [|reflexivity].
    rewrite map_lookup_imap. destruct (named_parameters m !! n) as [p|]; cbn; [|reflexivity].
    rewrite accumulate_data. reflexivity.
  - intros l. cbn. apply lookup_alter_is_Some.
  - apply quiet_same; reflexivity.
Qed.

(** [optimizer.step()] changes the parameters the optimizer was built
    over and no other. *)
Lemma step_outside (optimizer : SGD) (st : State) (l : loc) (n : string) :
  (l, n) ∉ param_group optimizer ->
  exists st', step optimizer st = Ok (tt, st') /\ param_at st' l n = param_at st l n.
Proof.
  intros Hn. eexists. split; [reflexivity|].
  unfold param_at. cbn. apply fold_update_outside, Hn.
Qed.

Lemma step_training (optimizer : SGD) :
  respects (training (param_group optimizer)) (step optimizer).
Proof.
  intros st [] st' [= <-]. split; [|split].
  - intros l n Hn. unfold param_at. cbn. rewrite fold_update_outside by exact Hn. reflexivity.
  - intros l. cbn. apply fold_update_objects.
  - apply quiet_same; reflexivity.
Qed.

(** *** The loops *)

Lemma print_batch_calm (c : bool) (e : Effect) :
  saves [e] = [] -> respects calm (if c then print e else ret tt).
Proof.
  intros He. destruct c; [apply print_calm, He|].
  apply respects_ret, calm_refl.
Qed.

Lemma valid_batch_calm loaders model criterion use_cuda valid_loss ib :
  respects calm (valid_batch loaders model criterion use_cuda valid_loss ib).
Proof.
  unfold valid_batch. apply respects_bind; [apply calm_trans | apply call_calm |].
  intros o. apply respects_bind; [apply calm_trans | apply print_batch_calm; reflexivity |].
  intros _. apply respects_ret, calm_refl.
Qed.

Lemma valid_phase_calm loaders model criterion use_cuda :
  respects calm (valid_phase loaders model criterion use_cuda).
Proof.
  unfold valid_phase. apply respects_bind; [apply calm_trans | apply iterate_calm |].
  intros bs. apply respects_for_each; [apply calm_refl | apply calm_trans |].
  intros s a. apply valid_batch_calm.
Qed.

Lemma train_batch_training loaders model optimizer criterion use_cuda train_loss ib :
  respects (training (param_group optimizer))
    (train_batch loaders model optimizer criterion use_cuda train_loss ib).
Proof.
  set (G := param_group optimizer).
  assert (Ht := training_trans G).
  assert (Hc : forall A (m : M A), respects calm m -> respects (training G) m).
  { intros A m. apply respects_weaken. apply calm_training. }
  unfold train_batch.
  apply respects_bind; [exact Ht | apply zero_grad_training |]. intros _.
  apply respects_bind; [exact Ht | apply Hc, call_calm |]. intros o.
  apply respects_bind; [exact Ht | apply backward_training |]. intros _.
  apply respects_bind; [exact Ht | apply step_training |]. intros _.
  apply respects_bind; [exact Ht | apply Hc, print_batch_calm; reflexivity |]. intros _.
  apply respects_ret, training_refl.
Qed.

Lemma train_phase_training loaders model optimizer criterion use_cuda :
  respects (training (param_group optimizer))
    (train_phase loaders model optimizer criterion use_cuda).
Proof.
  unfold train_phase. apply respects_bind; [apply training_trans | |].
  - eapply respects_weaken; [apply calm_training | apply iterate_calm].
  - intros bs. apply respects_for_each; [apply training_refl | apply training_trans |].
    intros s a. apply train_batch_training.
Qed.

Lemma epoch_losses_training loaders model optimizer criterion use_cuda :
  respects (training (param_group optimizer))
    (epoch_losses loaders model optimizer criterion use_cuda).
Proof.
  set (G := param_group optimizer).
  assert (Ht := training_trans G). assert (Hr := training_refl G).
  unfold epoch_losses.
  apply respects_bind; [exact Ht | apply train_phase_training |]. intros tl.
  apply respects_bind; [exact Ht | |].
  { eapply respects_weaken; [apply calm_training | apply valid_phase_calm]. }
  intros vl.
  apply respects_bind; [exact Ht | apply respects_lift, Hr |]. intros tl'.
  apply respects_bind; [exact Ht | apply respects_lift, Hr |]. intros vl'.
  apply respects_ret, Hr.
Qed.

End Training.

(** ** One epoch of [train] *)

Section Epoch.

Context {F : Framework}.

Variables (loaders : Loaders) (model : loc) (optimizer : SGD)
          (criterion : Criterion) (use_cuda : bool) (save_path : string).

Local Abbreviation saved_state := (saved_state save_path).

Lemma range_snoc (k : nat) :
  range 1 (Z.of_nat (S k) + 1) = range 1 (Z.of_nat k + 1) ++ [Z.of_nat (S k)].
Proof.
  unfold range.
  replace (Z.to_nat (Z.of_nat (S k) + 1 - 1)) with (S k) by lia.
  replace (Z.to_nat (Z.of_nat k + 1 - 1)) with k by lia.
  rewrite seq_S, map_app. cbn. f_equal. f_equal. lia.
Qed.

Lemma after_epochs_0 (st : State) :
  after_epochs 0 loaders model optimizer criterion use_cuda save_path st = Ok (Inf, st).
Proof. reflexivity. Qed.

Lemma after_epochs_S (k : nat) (st : State) :
  after_epochs (S k) loaders model optimizer criterion use_cuda save_path st =
  bind (after_epochs k loaders model optimizer criterion use_cuda save_path)
    (fun vmin => train_epoch loaders model optimizer criterion use_cuda save_path
                   vmin (Z.of_nat (S k))) st.
Proof.
  unfold after_epochs. rewrite range_snoc, for_each_app.
  unfold bind. destruct (for_each _ _ _ st) as [[vmin st1]|e]; [|reflexivity].
  cbn. unfold bind. destruct (train_epoch _ _ _ _ _ _ _ _ st1) as [[v s]|e]; reflexivity.
Qed.

Lemma train_after_epochs (n_epochs : Z) (st : State) :
  train n_epochs loaders model optimizer criterion use_cuda save_path st =
  bind (after_epochs (Z.to_nat n_epochs) loaders model optimizer criterion use_cuda save_path)
    (fun _ => ret model) st.
Proof.
  unfold train, after_epochs, range.
  replace (Z.to_nat (Z.of_nat (Z.to_nat n_epochs) + 1 - 1)) with (Z.to_nat (n_epochs + 1 - 1)) by lia.
  reflexivity.
Qed.

(** What [checkpoint] does, case by case. *)
Lemma checkpoint_eq (vmin vl : float) (st : State) :
  checkpoint model save_path vmin vl st =
  if le vl vmin then
    match heap st !! model with
    | Some m =>
        Ok (vl, mkState (heap st) (world st)
                  (<[save_path := (tensors m, buffers m)]> (files st))
                  ((effects st ++ [PrintSaving vmin vl])
                     ++ [TorchSave save_path (tensors m, buffers m)]))
    | None => Raise NoSuchObject
    end
  else Ok (vmin, st).
Proof.
  unfold checkpoint. destruct (le vl vmin); [|reflexivity].
  unfold bind, print, modify, state_dict, torch_save. cbn.
  destruct (heap st !! model); reflexivity.
Qed.

(** What an epoch that completes has done. *)
Lemma train_epoch_inv (vmin : float) (epoch : Z) (st : State) (vmin' : float) (st' : State) :
  train_epoch loaders model optimizer criterion use_cuda save_path vmin epoch st
    = Ok (vmin', st') ->
  exists tl vl st1,
    epoch_losses loaders model optimizer criterion use_cuda st = Ok ((tl, vl), st1) /\
    if le vl vmin then
      exists sd, state_dict model st1 = Ok (sd, st1) /\
                 vmin' = vl /\ st' = saved_state epoch vmin tl vl sd st1
    else vmin' = vmin /\ st' = add_effect (PrintEpoch epoch tl vl) st1.
Proof.
  unfold train_epoch. intros H.
  apply bind_Ok in H as ([tl vl] & st1 & H1 & H).
  apply bind_Ok in H as ([] & st2 & H2 & H).
  unfold print, modify in H2. injection H2 as <-.
  exists tl, vl, st1. split; [exact H1|].
  rewrite checkpoint_eq in H. unfold add_effect in H.
  cbn [heap world files effects fst snd] in H. destruct (le vl vmin).
  - unfold state_dict. destruct (heap st1 !! model) as [m|]; [|discriminate].
    injection H as <- <-. eexists. repeat split.
  - injection H as <- <-. split; reflexivity.
Qed.

Lemma new_effects_app (st st' : State) (es : list Effect) :
  effects st' = effects st ++ es -> new_effects st st' = es.
Proof. intros H. unfold new_effects. rewrite H. apply drop_app_length. Qed.

(** The effects and files of an epoch that completes.  [es] are the
    lines the two inner loops printed. *)
Lemma train_epoch_effects (vmin : float) (epoch : Z) (st : State) (vmin' : float) (st' : State) :
  train_epoch loaders model optimizer criterion use_cuda save_path vmin epoch st
    = Ok (vmin', st') ->
  exists tl vl st1 es,
    epoch_losses loaders model optimizer criterion use_cuda st = Ok ((tl, vl), st1) /\
    saves es = [] /\ heap st' = heap st1 /\
    if le vl vmin then
      exists sd, state_dict model st1 = Ok (sd, st1) /\ vmin' = vl /\
        files st' = <[save_path := sd]> (files st) /\
        new_effects st st' =
          es ++ [PrintEpoch epoch tl vl; PrintSaving vmin vl; TorchSave save_path sd]
    else vmin' = vmin /\ files st' = files st /\
         new_effects st st' = es ++ [PrintEpoch epoch tl vl].
Proof.
  intros H. apply train_epoch_inv in H as (tl & vl & st1 & H1 & H).
  destruct (epoch_losses_training _ _ _ _ _ _ _ _ H1) as (_ & _ & Hf & es & He & Hs).
  exists tl, vl, st1, es. split; [exact H1|]. split; [exact Hs|].
  destruct (le vl vmin).
  - destruct H as (sd & Hsd & -> & ->). split; [reflexivity|].
    exists sd. repeat split; [exact Hsd | cbn; congruence |].
    apply new_effects_app. cbn. rewrite He, <- !app_assoc. reflexivity.
  - destruct H as (-> & ->). split; [reflexivity|]. repeat split; [exact Hf|].
    apply new_effects_app. cbn. rewrite He, <- !app_assoc. reflexivity.
Qed.

End Epoch.

(** ** The decision to save *)

Section Checkpoint.

Context {F : Framework}.

Variables (loaders : Loaders) (model : loc) (optimizer : SGD)
          (criterion : Criterion) (use_cuda : bool) (save_path : string).

Local Abbreviation epochs k :=
  (after_epochs k loaders model optimizer criterion use_cuda save_path).
Local Abbreviation losses := (epoch_losses loaders model optimizer criterion use_cuda).

(** C1.  Take any epoch of the loop of [train]: [k] epochs are done with
    running minimum [vmin], and epoch [k+1] computes the mean validation
    loss [vl] and completes.  If [vl <= vmin] the epoch makes exactly one
    [torch.save], of the model's [state_dict()] to [save_path], and the
    running minimum becomes [vl]; otherwise it makes no save, the files
    are as they were and the running minimum stays [vmin]. *)
Theorem checkpoint_written_iff_le (k : nat) (st0 st st1 st' : State)
    (vmin tl vl vmin' : float) :
  epochs k st0 = Ok (vmin, st) ->
  losses st = Ok ((tl, vl), st1) ->
  epochs (S k) st0 = Ok (vmin', st') ->
  (le vl vmin = true ->
     exists sd, state_dict model st1 = Ok (sd, st1) /\
       saves (new_effects st st') = [(save_path, sd)] /\
       files st' = <[save_path := sd]> (files st) /\
       vmin' = vl) /\
  (le vl vmin = false ->
     saves (new_effects st st') = [] /\ files st' = files st /\ vmin' = vmin).
Proof.
  intros Hk Hl HS.
  rewrite after_epochs_S in HS. apply bind_Ok in HS as (v & s & Hk' & HS).
  rewrite Hk in Hk'. injection Hk' as <- <-.
  apply train_epoch_effects in HS as (tl' & vl' & st1' & es & Hl' & Hs & _ & H).
  rewrite Hl in Hl'. injection Hl' as <- <- <-.
  split; intros Hle; rewrite Hle in H.
  - destruct H as (sd & Hsd & -> & Hf & He). exists sd.
    repeat split; [exact Hsd | | exact Hf].
    rewrite He, saves_app, Hs. reflexivity.
  - destruct H as (-> & Hf & He). repeat split; [|exact Hf].
    rewrite He, saves_app, Hs. reflexivity.
Qed.

End Checkpoint.

(** The first toy epoch: loss [1.0] against the initial minimum. *)
Lemma checkpoint_written_iff_le_witness :
  le 1%float Inf = true /\
  exists sd,
    saves (new_effects Toy.init (Toy.final (Toy.epochs [1%float] 1) Toy.init))
      = [(Toy.save_path, sd)].
Proof.
  split; [reflexivity|].
  destruct (checkpoint_written_iff_le (Toy.loaders [1%float]) Toy.model
              Toy.optimizer_scratch tt true Toy.save_path 0 Toy.init Toy.init
              (Toy.final (Toy.losses [1%float]) Toy.init)
              (Toy.final (Toy.epochs [1%float] 1) Toy.init)
              Inf 1%float 1%float 1%float) as [H _].
  - reflexivity.
  - toy_run (0%float, 0%float).
  - toy_run 0%float.
  - destruct (H eq_refl) as (sd & _ & Hs & _). exists sd. exact Hs.
Defined.

(** ** When [train] returns *)

Section Totality.

Context {F : Framework}.

Variable model : loc.

Local Abbreviation live := (live model).

Lemma succeeds_call (data : Data) : succeeds live (call model data).
Proof.
  intros st [m Hm]. unfold call. rewrite Hm. eexists _, _. split; [reflexivity|].
  unfold live. cbn. rewrite lookup_insert_eq. eauto.
Qed.

Lemma succeeds_state_dict : succeeds live (state_dict model).
Proof.
  intros st [m Hm]. unfold state_dict. rewrite Hm. eexists _, _.
  split; [reflexivity|]. exists m. exact Hm.
Qed.

Lemma succeeds_iterate (loader : DataLoader) : succeeds live (iterate loader).
Proof. intros st H. eexists _, _. split; [reflexivity | exact H]. Qed.

Lemma succeeds_print (e : Effect) : succeeds live (print e).
Proof. apply succeeds_modify. intros st H. exact H. Qed.

Lemma succeeds_zero_grad (optimizer : SGD) : succeeds live (zero_grad optimizer).
Proof.
  apply succeeds_modify. intros st H. unfold live. cbn.
  apply fold_update_objects, H.
Qed.

Lemma succeeds_step (optimizer : SGD) : succeeds live (step optimizer).
Proof.
  apply succeeds_modify. intros st H. unfold live. cbn.
  apply fold_update_objects, H.
Qed.

Lemma succeeds_backward (loss : Loss) : succeeds live (backward loss).
Proof.
  apply succeeds_modify. intros st H. unfold live. cbn.
  apply lookup_alter_is_Some, H.
Qed.

Lemma succeeds_torch_save (sd : StateDict) (path : string) :
  succeeds live (torch_save sd path).
Proof. apply succeeds_modify. intros st H. exact H. Qed.

Lemma succeeds_print_if (c : bool) (e : Effect) :
  succeeds live (if c then print e else ret tt).
Proof. destruct c; [apply succeeds_print | apply succeeds_ret]. Qed.

Lemma succeeds_div_int (x : float) (n : Z) :
  n <> 0 -> succeeds live (lift (div_int x n)).
Proof.
  intros Hn st H. unfold div_int. apply Z.eqb_neq in Hn. rewrite Hn.
  eexists _, _. split; [reflexivity | exact H].
Qed.

Variables (loaders : Loaders) (optimizer : SGD) (criterion : Criterion)
          (use_cuda : bool) (save_path : string).

Lemma succeeds_train_batch train_loss ib :
  succeeds live (train_batch loaders model optimizer criterion use_cuda train_loss ib).
Proof.
  unfold train_batch.
  apply succeeds_bind; [apply succeeds_zero_grad|]. intros _.
  apply succeeds_bind; [apply succeeds_call|]. intros o.
  apply succeeds_bind; [apply succeeds_backward|]. intros _.
  apply succeeds_bind; [apply succeeds_step|]. intros _.
  apply succeeds_bind; [apply succeeds_print_if|]. intros _.
  apply succeeds_ret.
Qed.

Lemma succeeds_valid_batch valid_loss ib :
  succeeds live (valid_batch loaders model criterion use_cuda valid_loss ib).
Proof.
  unfold valid_batch.
  apply succeeds_bind; [apply succeeds_call|]. intros o.
  apply succeeds_bind; [apply succeeds_print_if|]. intros _.
  apply succeeds_ret.
Qed.

Lemma succeeds_epoch_losses :
  dataset_len (loader_train loaders) <> 0 ->
  dataset_len (loader_valid loaders) <> 0 ->
  succeeds live (epoch_losses loaders model optimizer criterion use_cuda).
Proof.
  intros Ht Hv. unfold epoch_losses, train_phase, valid_phase.
  apply succeeds_bind.
  { apply succeeds_bind; [apply succeeds_iterate|]. intros bs.
    apply succeeds_for_each. intros s a. apply succeeds_train_batch. }
  intros tl. apply succeeds_bind.
  { apply succeeds_bind; [apply succeeds_iterate|]. intros bs.
    apply succeeds_for_each. intros s a. apply succeeds_valid_batch. }
  intros vl.
  apply succeeds_bind; [apply succeeds_div_int, Ht|]. intros tl'.
  apply succeeds_bind; [apply succeeds_div_int, Hv|]. intros vl'.
  apply succeeds_ret.
Qed.

Lemma succeeds_checkpoint (vmin vl : float) :
  succeeds live (checkpoint model save_path vmin vl).
Proof.
  unfold checkpoint. destruct (le vl vmin); [|apply succeeds_ret].
  apply succeeds_bind; [apply succeeds_print|]. intros _.
  apply succeeds_bind; [apply succeeds_state_dict|]. intros sd.
  apply succeeds_bind; [apply succeeds_torch_save|]. intros _.
  apply succeeds_ret.
Qed.

Lemma succeeds_train_epoch (vmin : float) (epoch : Z) :
  dataset_len (loader_train loaders) <> 0 ->
  dataset_len (loader_valid loaders) <> 0 ->
  succeeds live
    (train_epoch loaders model optimizer criterion use_cuda save_path vmin epoch).
Proof.
  intros Ht Hv. unfold train_epoch.
  apply succeeds_bind; [apply succeeds_epoch_losses; assumption|]. intros r.
  apply succeeds_bind; [apply succeeds_print|]. intros _.
  apply succeeds_checkpoint.
Qed.

Lemma range_empty (a b : Z) : b <= a -> range a b = [].
Proof. intros H. unfold range. replace (Z.to_nat (b - a)) with 0%nat by lia. reflexivity. Qed.

End Totality.

(** ** What a whole run of [train] changes *)

Section Run.

Context {F : Framework}.

Lemma run_frame_refl G path st : run_frame G path st st.
Proof.
  split; [|split; [|split]].
  - intros l n _. reflexivity.
  - apply same_objects_refl.
  - reflexivity.
  - exists []. split; [symmetry; apply app_nil_r | constructor].
Qed.

Lemma run_frame_trans G path st1 st2 st3 :
  run_frame G path st1 st2 -> run_frame G path st2 st3 -> run_frame G path st1 st3.
Proof.
  intros (Hd1 & Ho1 & Hf1 & es1 & He1 & Hs1) (Hd2 & Ho2 & Hf2 & es2 & He2 & Hs2).
  split; [|split; [|split]].
  - intros l n Hn. rewrite (Hd2 l n Hn). apply Hd1, Hn.
  - eapply same_objects_trans; eassumption.
  - intros p Hp. rewrite (Hf2 p Hp). apply Hf1, Hp.
  - exists (es1 ++ es2). split.
    + rewrite He2, He1. symmetry. apply app_assoc.
    + rewrite saves_app. apply Forall_app. split; assumption.
Qed.

Lemma training_run_frame G path st st' : training G st st' -> run_frame G path st st'.
Proof.
  intros (Hd & Ho & Hf & es & He & Hs). split; [|split; [|split]].
  - exact Hd.
  - exact Ho.
  - intros p _. rewrite Hf. reflexivity.
  - exists es. split; [exact He|]. rewrite Hs. constructor.
Qed.

Variables (loaders : Loaders) (model : loc) (optimizer : SGD)
          (criterion : Criterion) (use_cuda : bool) (save_path : string).

Lemma checkpoint_run_frame G (vmin vl : float) :
  respects (run_frame G save_path) (checkpoint model save_path vmin vl).
Proof.
  intros st v st' H. rewrite checkpoint_eq in H. destruct (le vl vmin).
  - destruct (heap st !! model) as [m|]; [|discriminate]. injection H as _ <-.
    split; [|split; [|split]].
    + intros l n _. reflexivity.
    + apply same_objects_same. reflexivity.
    + intros p Hp. cbn. apply lookup_insert_ne. congruence.
    + eexists. split; [cbn; rewrite <- app_assoc; reflexivity|].
      cbn. repeat constructor.
  - injection H as _ <-. apply run_frame_refl.
Qed.

Lemma train_epoch_run_frame (vmin : float) (epoch : Z) :
  respects (run_frame (param_group optimizer) save_path)
    (train_epoch loaders model optimizer criterion use_cuda save_path vmin epoch).
Proof.
  set (G := param_group optimizer). assert (Ht := run_frame_trans G save_path).
  unfold train_epoch. apply respects_bind; [exact Ht | |].
  { eapply respects_weaken; [apply training_run_frame | apply epoch_losses_training]. }
  intros r. apply respects_bind; [exact Ht | |].
  { eapply respects_weaken; [|apply print_calm; reflexivity].
    intros st st' H. apply training_run_frame, calm_training, H. }
  intros _. apply checkpoint_run_frame.
Qed.

Lemma after_epochs_run_frame (k : nat) :
  respects (run_frame (param_group optimizer) save_path)
    (after_epochs k loaders model optimizer criterion use_cuda save_path).
Proof.
  unfold after_epochs. apply respects_for_each.
  - apply run_frame_refl.
  - apply run_frame_trans.
  - intros s a. apply train_epoch_run_frame.
Qed.

Lemma train_run_frame (n_epochs : Z) :
  respects (run_frame (param_group optimizer) save_path)
    (train n_epochs loaders model optimizer criterion use_cuda save_path).
Proof.
  intros st r st' H. rewrite train_after_epochs in H.
  apply bind_Ok in H as (v & st1 & H1 & [= _ <-]).
  eapply after_epochs_run_frame, H1.
Qed.

(** C8.  Whatever [train] returns is the handle it was given, and the
    store it leaves holds the same objects as before: the object was
    changed in place, no copy was made.  It does return when the handle
    denotes an object and either there is no epoch to run or both datasets
    are non-empty. *)
Theorem train_returns_model (n_epochs : Z) (st : State) :
  (forall r st',
     train n_epochs loaders model optimizer criterion use_cuda save_path st = Ok (r, st') ->
     r = model /\ same_objects st st') /\
  (is_Some (heap st !! model) ->
   n_epochs <= 0 \/
     (dataset_len (loader_train loaders) <> 0 /\ dataset_len (loader_valid loaders) <> 0) ->
   exists st',
     train n_epochs loaders model optimizer criterion use_cuda save_path st = Ok (model, st') /\
     is_Some (heap st' !! model)).
Proof.
  split.
  - intros r st' H. split.
    + unfold train in H. apply bind_Ok in H as (v & st1 & _ & [= <- _]). reflexivity.
    + apply train_run_frame in H as (_ & Ho & _). exact Ho.
  - intros Hlive Hn. unfold train. destruct Hn as [Hn|[Ht Hv]].
    + rewrite range_empty by lia. exists st. split; [reflexivity | exact Hlive].
    + destruct (succeeds_for_each (live model)
                  (train_epoch loaders model optimizer criterion use_cuda save_path)
                  (range 1 (n_epochs + 1)) Inf) with (st := st)
        as (v & st' & H & Hl); [|exact Hlive|].
      * intros s a. apply succeeds_train_epoch; assumption.
      * exists st'. split; [|exact Hl]. apply bind_Ok. exists v, st'. split; [exact H | reflexivity].
Qed.

(** C10.  With [n_epochs = 0] the loop body never runs: [train] returns
    the handle at once and the state is untouched (no loader was iterated,
    no parameter, buffer or gradient changed, nothing printed or saved). *)
Theorem train_zero_epochs (st : State) :
  train 0 loaders model optimizer criterion use_cuda save_path st = Ok (model, st).
Proof.
  unfold train. rewrite (range_empty 1 (0 + 1)) by lia.
  reflexivity.
Qed.

End Run.

(** A toy run of two epochs returns the handle it was given. *)
Lemma train_returns_model_witness :
  is_Some (heap Toy.init !! Toy.model) /\
  exists st',
    train 2 (Toy.loaders [1%float; 1%float]) Toy.model Toy.optimizer_scratch tt true
      Toy.save_path Toy.init = Ok (Toy.model, st').
Proof.
  assert (Hl : is_Some (heap Toy.init !! Toy.model)) by (exists Toy.net; by_evaluation).
  split; [exact Hl|].
  destruct (train_returns_model (Toy.loaders [1%float; 1%float]) Toy.model
              Toy.optimizer_scratch tt true Toy.save_path 2 Toy.init) as [_ H].
  destruct (H Hl) as (st' & Hst & _).
  - right. split; discriminate.
  - exists st'. exact Hst.
Defined.

(** ** The first epoch, and ties *)

Section FirstEpoch.

Context {F : Framework}.

Variables (loaders : Loaders) (model : loc) (optimizer : SGD)
          (criterion : Criterion) (use_cuda : bool) (save_path : string).

Lemma range_cons (n : Z) : 1 <= n -> range 1 (n + 1) = 1 :: range 2 (n + 1).
Proof.
  intros Hn. unfold range.
  replace (Z.to_nat (n + 1 - 1)) with (S (Z.to_nat (n + 1 - 2))) by lia.
  cbn [seq map]. f_equal. rewrite <- seq_shift, map_map.
  apply map_ext. intros k. lia.
Qed.

(** A run of at least one epoch starts with the first epoch. *)
Lemma train_first_epoch (n_epochs : Z) (st : State) :
  1 <= n_epochs ->
  train n_epochs loaders model optimizer criterion use_cuda save_path st =
  bind (after_epochs 1 loaders model optimizer criterion use_cuda save_path)
    (fun vmin =>
       bind (for_each (train_epoch loaders model optimizer criterion use_cuda save_path)
               (range 2 (n_epochs + 1)) vmin)
         (fun _ => ret model)) st.
Proof.
  intros Hn. unfold train, after_epochs. rewrite (range_cons n_epochs Hn).
  change (range 1 (Z.of_nat 1 + 1)) with [1]. cbn [for_each]. unfold bind, ret.
  destruct (train_epoch _ _ _ _ _ _ _ _ st) as [[v s]|e]; reflexivity.
Qed.

(** C9, as amended.  In a run of at least one epoch whose first epoch
    completes with the mean validation loss [vl]: if [vl] is not a NaN the
    epoch saves the model's [state_dict()] to [save_path] and the running
    minimum becomes [vl], because the minimum starts at infinity; if [vl]
    is a NaN nothing is saved. *)
Theorem first_epoch_saves_unless_nan (n_epochs : Z) (st0 st1 s : State)
    (vmin tl vl : float) :
  1 <= n_epochs ->
  after_epochs 1 loaders model optimizer criterion use_cuda save_path st0 = Ok (vmin, st1) ->
  epoch_losses loaders model optimizer criterion use_cuda st0 = Ok ((tl, vl), s) ->
  train n_epochs loaders model optimizer criterion use_cuda save_path st0 =
    bind (for_each (train_epoch loaders model optimizer criterion use_cuda save_path)
            (range 2 (n_epochs + 1)) vmin) (fun _ => ret model) st1 /\
  (PrimFloat.is_nan vl = false ->
     exists sd, state_dict model s = Ok (sd, s) /\
       saves (new_effects st0 st1) = [(save_path, sd)] /\
       files st1 !! save_path = Some sd /\ vmin = vl) /\
  (PrimFloat.is_nan vl = true ->
     saves (new_effects st0 st1) = [] /\ files st1 = files st0 /\ vmin = Inf).
Proof.
  intros Hn H1 Hl. split.
  { rewrite train_first_epoch by exact Hn. unfold bind at 1. rewrite H1. reflexivity. }
  rewrite after_epochs_S in H1. apply bind_Ok in H1 as (v & st & H0 & H1).
  rewrite after_epochs_0 in H0. injection H0 as <- <-.
  apply train_epoch_effects in H1 as (tl' & vl' & s' & es & Hl' & Hs & _ & H).
  rewrite Hl in Hl'. injection Hl' as <- <- <-.
  split; intros Hnan.
  - rewrite (le_Inf vl Hnan) in H. destruct H as (sd & Hsd & -> & Hf & He).
    exists sd. repeat split; [exact Hsd | | ].
    + rewrite He, saves_app, Hs. reflexivity.
    + rewrite Hf. apply lookup_insert_eq.
  - rewrite (le_nan_l vl Inf Hnan) in H. destruct H as (-> & Hf & He).
    repeat split; [|exact Hf]. rewrite He, saves_app, Hs. reflexivity.
Qed.

End FirstEpoch.

(** A toy first epoch with validation loss [1.0] leaves a checkpoint. *)
Lemma first_epoch_saves_unless_nan_witness :
  PrimFloat.is_nan 1%float = false /\
  exists sd,
    files (Toy.final (Toy.epochs [1%float] 1) Toy.init) !! Toy.save_path = Some sd.
Proof.
  split; [reflexivity|].
  destruct (first_epoch_saves_unless_nan (Toy.loaders [1%float]) Toy.model
              Toy.optimizer_scratch tt true Toy.save_path 1 Toy.init
              (Toy.final (Toy.epochs [1%float] 1) Toy.init)
              (Toy.final (Toy.losses [1%float]) Toy.init)
              1%float 1%float 1%float) as (_ & H & _).
  - lia.
  - toy_run 0%float.
  - toy_run (0%float, 0%float).
  - destruct (H eq_refl) as (sd & _ & _ & Hf & _). exists sd. exact Hf.
Defined.

(** C9, as stated, fails: with a validation loss that is a NaN the first
    epoch completes, [train] returns, and no checkpoint was written. *)
Lemma first_epoch_nan_no_save :
  Toy.value (0%float, 0%float) (Toy.losses [nan]) Toy.init = (1%float, nan) /\
  Toy.returns (Toy.epochs [nan] 1) Toy.init = true /\
  Toy.returns (train 1 (Toy.loaders [nan]) Toy.model Toy.optimizer_scratch tt true
                 Toy.save_path) Toy.init = true /\
  effects (Toy.final (train 1 (Toy.loaders [nan]) Toy.model Toy.optimizer_scratch tt true
                        Toy.save_path) Toy.init)
    = [PrintTrainingBatch 0 1; PrintValidationBatch 0 1; PrintEpoch 1 1%float nan] /\
  files (Toy.final (train 1 (Toy.loaders [nan]) Toy.model Toy.optimizer_scratch tt true
                      Toy.save_path) Toy.init) = ∅.
Proof. all_by_evaluation. Qed.

(** C2.  The code at a tie: the second epoch's validation loss equals the
    running minimum [1.0] left by the first, and the checkpoint is written
    again, with other contents (the buffers saved count two forward passes
    after the first epoch and four after the second).  The statement that
    a tie does not overwrite fails here. *)
Theorem tie_overwrites_checkpoint :
  exists st1 st2,
    Toy.epochs [1%float; 1%float] 1 Toy.init = Ok (1%float, st1) /\
    Toy.value (0%float, 0%float) (Toy.losses [1%float; 1%float]) st1 = (1%float, 1%float) /\
    Toy.epochs [1%float; 1%float] 2 Toy.init = Ok (1%float, st2) /\
    snd <$> files st1 !! Toy.save_path = Some 2 /\
    map fst (saves (new_effects st1 st2)) = [Toy.save_path] /\
    snd <$> files st2 !! Toy.save_path = Some 4.
Proof.
  exists (Toy.final (Toy.epochs [1%float; 1%float] 1) Toy.init),
         (Toy.final (Toy.epochs [1%float; 1%float] 2) Toy.init).
  split; [toy_run 0%float|]. split; [by_evaluation|].
  split; [toy_run 0%float|]. all_by_evaluation.
Qed.

(** ** Validation, and the transfer-learning optimizer *)

Section Frozen.

Context {F : Framework}.

Variables (loaders : Loaders) (criterion : Criterion) (use_cuda : bool)
          (save_path : string).

(** C6.  The validation loop of an epoch only calls the model and the
    criterion: across it every parameter object of every module keeps its
    value and its gradient, no file is written and nothing is saved.  (The
    buffers may change: the model is called in training mode.) *)
Theorem validation_leaves_parameters (model : loc) (st st' : State) (valid_loss : float) :
  valid_phase loaders model criterion use_cuda st = Ok (valid_loss, st') ->
  (forall l n, param_at st' l n = param_at st l n) /\
  files st' = files st /\
  saves (new_effects st st') = [].
Proof.
  intros H. apply valid_phase_calm in H as (Hp & _ & Hf & es & He & Hs).
  split; [exact Hp|]. split; [exact Hf|].
  rewrite (new_effects_app _ _ _ He). exact Hs.
Qed.

Lemma features_not_classifier (n : string) :
  is_features n = true -> is_classifier n = false.
Proof.
  unfold is_features, is_classifier.
  destruct n as [|a n]; cbn -[Ascii.ascii_dec]; [discriminate|].
  destruct (Ascii.ascii_dec "f"%char a) as [<-|Hf]; [|intros [=]]. intros _.
  destruct (Ascii.ascii_dec "c"%char "f"%char) as [Hc|Hc]; [discriminate Hc | reflexivity].
Qed.

(** The references [submodule_parameters] returns. *)
Lemma submodule_parameters_inv (sub : string -> bool) (model : loc)
    (st : State) (ps : list (loc * string)) (st' : State) :
  submodule_parameters sub model st = Ok (ps, st') ->
  st' = st /\ forall l n, (l, n) ∈ ps -> l = model /\ sub n = true.
Proof.
  unfold submodule_parameters. destruct (heap st !! model) as [m|]; [|discriminate].
  intros [= <- <-]. split; [reflexivity|]. intros l n Hin.
  apply list_elem_of_In, in_map_iff in Hin as (n' & [= <- <-] & Hin).
  apply list_elem_of_In, list_elem_of_filter in Hin as [Hs _]. auto.
Qed.

Lemma optimizer_transfer_inv (model_transfer : loc) (st : State)
    (optimizer : SGD) (st' : State) :
  optimizer_transfer model_transfer st = Ok (optimizer, st') ->
  st' = st /\ lr optimizer = learning_rate /\
  forall l n, (l, n) ∈ param_group optimizer -> l = model_transfer /\ is_classifier n = true.
Proof.
  unfold optimizer_transfer. intros H. apply bind_Ok in H as (ps & st1 & Hps & H).
  apply submodule_parameters_inv in Hps as [-> Hps].
  unfold optim_SGD in H. destruct ps as [|p ps]; [discriminate|].
  injection H as <- <-. auto.
Qed.

(** C7.  The optimizer of the transfer notebook holds references to
    parameters of the classifier of [model_transfer] only.  Hence a step
    of it leaves every other parameter object as it is, and a whole run of
    [train] with it, from any state, leaves the value of every parameter
    of the feature extractor unchanged. *)
Theorem transfer_optimizer_trains_classifier_only (model_transfer : loc)
    (st0 st1 : State) (optimizer_tr : SGD) :
  optimizer_transfer model_transfer st0 = Ok (optimizer_tr, st1) ->
  (forall l n, (l, n) ∈ param_group optimizer_tr ->
     l = model_transfer /\ is_classifier n = true) /\
  (forall st st' l n,
     step optimizer_tr st = Ok (tt, st') ->
     is_classifier n = false \/ l <> model_transfer ->
     param_at st' l n = param_at st l n) /\
  (forall n_epochs st r st2 n,
     train n_epochs loaders model_transfer optimizer_tr criterion use_cuda save_path st
       = Ok (r, st2) ->
     is_features n = true ->
     p_data <$> param_at st2 model_transfer n = p_data <$> param_at st model_transfer n).
Proof.
  intros H. apply optimizer_transfer_inv in H as (-> & _ & HG).
  assert (Hout : forall l n, is_classifier n = false \/ l <> model_transfer ->
                             (l, n) ∉ param_group optimizer_tr).
  { intros l n Hn Hin. destruct (HG l n Hin) as [-> Hc]. destruct Hn; congruence. }
  split; [exact HG|]. split.
  - intros st st' l n Hstep Hn.
    destruct (step_outside optimizer_tr st l n (Hout l n Hn)) as (st'' & Hs & Hp).
    rewrite Hs in Hstep. injection Hstep as <-. exact Hp.
  - intros n_epochs st r st2 n Htrain Hn.
    apply train_run_frame in Htrain as (Hd & _).
    apply Hd, Hout. left. apply features_not_classifier, Hn.
Qed.

(** The "freeze" cell sets an attribute the framework does not read:
    every parameter still requires a gradient exactly when it did, and
    keeps its value and its gradient. *)
Lemma freeze_features_no_effect (model_transfer : loc) (st st' : State) (l : loc) (n : string) :
  freeze_features model_transfer st = Ok (tt, st') ->
  requires_grad <$> param_at st' l n = requires_grad <$> param_at st l n /\
  p_data <$> param_at st' l n = p_data <$> param_at st l n /\
  p_grad <$> param_at st' l n = p_grad <$> param_at st l n.
Proof.
  unfold freeze_features. intros H. apply bind_Ok in H as (ps & st1 & Hps & H).
  apply submodule_parameters_inv in Hps as [-> _]. injection H as <-.
  unfold param_at. cbn. generalize (heap st) as h.
  induction ps as [|r ps IH]; intros h; cbn; [auto|].
  destruct (IH (update_param
                  (fun p => mkParam (p_data p) (p_grad p) (requires_grad p) (Some false))
                  h r)) as (-> & -> & ->).
  rewrite heap_param_update. destruct (decide _); [|auto].
  destruct (heap_param h l n); cbn; auto.
Qed.

End Frozen.

(** A toy validation pass leaves the classifier weight as it was. *)
Lemma validation_leaves_parameters_witness :
  param_at (Toy.final (valid_phase (Toy.loaders [1%float]) Toy.model tt true) Toy.init)
    Toy.model "classifier.6.weight"
  = Some (@mkParam Toy.framework 20 None true None).
Proof.
  destruct (validation_leaves_parameters (Toy.loaders [1%float]) tt true Toy.model Toy.init
              (Toy.final (valid_phase (Toy.loaders [1%float]) Toy.model tt true) Toy.init)
              2%float) as (Hp & _).
  - toy_run 0%float.
  - rewrite Hp. by_evaluation.
Defined.

(** Two toy epochs with the classifier-only optimizer: the feature weight
    keeps its value [10]. *)
Lemma transfer_optimizer_trains_classifier_only_witness :
  optimizer_transfer Toy.model Toy.init = Ok (Toy.optimizer_classifier, Toy.init) /\
  p_data <$> param_at
    (Toy.final (train 2 (Toy.loaders [1%float; 1%float]) Toy.model Toy.optimizer_classifier
                  tt true Toy.save_path) Toy.init)
    Toy.model "features.0.weight"
  = Some 10.
Proof.
  assert (H0 : optimizer_transfer Toy.model Toy.init = Ok (Toy.optimizer_classifier, Toy.init))
    by by_evaluation.
  split; [exact H0|].
  destruct (transfer_optimizer_trains_classifier_only (Toy.loaders [1%float; 1%float]) tt true
              Toy.save_path Toy.model Toy.init Toy.init Toy.optimizer_classifier H0)
    as (_ & _ & H).
  rewrite (H 2 Toy.init Toy.model
             (Toy.final (train 2 (Toy.loaders [1%float; 1%float]) Toy.model
                           Toy.optimizer_classifier tt true Toy.save_path) Toy.init)
             "features.0.weight").
  - by_evaluation.
  - toy_run 2%positive.
  - reflexivity.
Defined.

(** ** The reported means *)

Section Means.

Context {F : Framework}.

(** A loop that accumulates does what the loop that lists does, and ends
    with the fold of the list. *)
Lemma for_each_observe {A R S} (body : S -> A -> M S)
    (obs : list R -> A -> M (list R)) (f : S -> R -> S) :
  (forall s seen a st,
     match obs seen a st with
     | Ok (seen', st') => exists r, seen' = seen ++ [r] /\ body s a st = Ok (f s r, st')
     | Raise e => body s a st = Raise e
     end) ->
  forall l s seen st,
    match for_each obs l seen st with
    | Ok (seen', st') =>
        exists rs, seen' = seen ++ rs /\ for_each body l s st = Ok (fold_left f rs s, st')
    | Raise e => for_each body l s st = Raise e
    end.
Proof.
  intros Hstep. induction l as [|a l IH]; intros s seen st; cbn.
  - exists []. split; [symmetry; apply app_nil_r | reflexivity].
  - unfold bind. specialize (Hstep s seen a st).
    destruct (obs seen a st) as [[seen1 st1]|e].
    + destruct Hstep as (r & -> & ->).
      specialize (IH (f s r) (seen ++ [r]) st1).
      destruct (for_each obs l (seen ++ [r]) st1) as [[seen2 st2]|e].
      * destruct IH as (rs & -> & ->). exists (r :: rs).
        split; [rewrite <- app_assoc; reflexivity | reflexivity].
      * exact IH.
    + rewrite Hstep. reflexivity.
Qed.

Variables (loaders : Loaders) (model : loc) (optimizer : SGD)
          (criterion : Criterion) (use_cuda : bool) (save_path : string).

Lemma train_batch_observe (s : float) (seen : list BatchRecord)
    (ib : Z * (Data * Target)) (st : State) :
  match observe_train_batch loaders model optimizer criterion use_cuda seen ib st with
  | Ok (seen', st') =>
      exists r, seen' = seen ++ [r] /\
        train_batch loaders model optimizer criterion use_cuda s ib st
          = Ok (PrimFloat.add s (mul_int r.1 r.2), st')
  | Raise e => train_batch loaders model optimizer criterion use_cuda s ib st = Raise e
  end.
Proof.
  unfold observe_train_batch, train_batch, bind, zero_grad, backward, step, modify.
  destruct (call model _ _) as [[o st1]|e]; [|reflexivity].
  destruct (ib.1 mod 200 =? 0); eexists; split; reflexivity.
Qed.

Lemma valid_batch_observe (s : float) (seen : list BatchRecord)
    (ib : Z * (Data * Target)) (st : State) :
  match observe_valid_batch loaders model criterion use_cuda seen ib st with
  | Ok (seen', st') =>
      exists r, seen' = seen ++ [r] /\
        valid_batch loaders model criterion use_cuda s ib st
          = Ok (PrimFloat.add s (mul_int r.1 r.2), st')
  | Raise e => valid_batch loaders model criterion use_cuda s ib st = Raise e
  end.
Proof.
  unfold observe_valid_batch, valid_batch, bind.
  destruct (call model _ _) as [[o st1]|e]; [|reflexivity].
  destruct (ib.1 mod 200 =? 0); eexists; split; reflexivity.
Qed.

Lemma train_phase_observed (tl : float) (st st' : State) :
  train_phase loaders model optimizer criterion use_cuda st = Ok (tl, st') ->
  exists rs,
    observed_train_phase loaders model optimizer criterion use_cuda st = Ok (rs, st') /\
    tl = weighted_sum rs.
Proof.
  unfold train_phase, observed_train_phase, bind, iterate.
  set (bs := enumerate _). set (st1 := set_world _ st). intros H.
  pose proof (for_each_observe _ _ _ train_batch_observe bs 0%float [] st1) as Ho.
  destruct (for_each (observe_train_batch _ _ _ _ _) bs [] st1) as [[rs st2]|e].
  - destruct Ho as (rs' & -> & Ho). rewrite Ho in H. injection H as <- <-.
    exists rs'. split; reflexivity.
  - rewrite Ho in H. discriminate.
Qed.

Lemma valid_phase_observed (vl : float) (st st' : State) :
  valid_phase loaders model criterion use_cuda st = Ok (vl, st') ->
  exists rs,
    observed_valid_phase loaders model criterion use_cuda st = Ok (rs, st') /\
    vl = weighted_sum rs.
Proof.
  unfold valid_phase, observed_valid_phase, bind, iterate.
  set (bs := enumerate _). set (st1 := set_world _ st). intros H.
  pose proof (for_each_observe _ _ _ valid_batch_observe bs 0%float [] st1) as Ho.
  destruct (for_each (observe_valid_batch _ _ _ _) bs [] st1) as [[rs st2]|e].
  - destruct Ho as (rs' & -> & Ho). rewrite Ho in H. injection H as <- <-.
    exists rs'. split; reflexivity.
  - rewrite Ho in H. discriminate.
Qed.

(** C4.  Take any epoch that completes, started in [st].  Its training
    loop contributes, batch by batch, the records [trs] (loss and number
    of samples), its validation loop the records [vrs]; the line the epoch
    prints reports, as training loss, the sum of loss times number of
    samples over [trs] divided by [len(loaders['train'].dataset)], and as
    validation loss the same over [vrs] and the validation dataset.  (Sums,
    products and quotients are those of Python floats, the sum taken in
    batch order from [0.0].) *)
Theorem epoch_reports_weighted_means (vmin : float) (epoch : Z) (st : State)
    (vmin' : float) (st' : State) :
  train_epoch loaders model optimizer criterion use_cuda save_path vmin epoch st
    = Ok (vmin', st') ->
  exists trs st1 vrs st2,
    observed_train_phase loaders model optimizer criterion use_cuda st = Ok (trs, st1) /\
    observed_valid_phase loaders model criterion use_cuda st1 = Ok (vrs, st2) /\
    dataset_len (loader_train loaders) <> 0 /\
    dataset_len (loader_valid loaders) <> 0 /\
    PrintEpoch epoch
      (PrimFloat.div (weighted_sum trs) (float_of_int (dataset_len (loader_train loaders))))
      (PrimFloat.div (weighted_sum vrs) (float_of_int (dataset_len (loader_valid loaders))))
    ∈ new_effects st st'.
Proof.
  intros H. apply train_epoch_effects in H as (tl & vl & s & es & Hl & _ & _ & H).
  unfold epoch_losses in Hl.
  apply bind_Ok in Hl as (tl0 & st1 & Ht & Hl).
  apply bind_Ok in Hl as (vl0 & st2 & Hv & Hl).
  apply bind_Ok in Hl as (tl1 & st3 & Hdt & Hl).
  apply bind_Ok in Hl as (vl1 & st4 & Hdv & Hl).
  injection Hl as <- <- <-.
  apply lift_Ok in Hdt as [Hdt ->]. apply lift_Ok in Hdv as [Hdv ->].
  unfold div_int in Hdt, Hdv.
  destruct (dataset_len (loader_train loaders) =? 0) eqn:Et; [discriminate|].
  destruct (dataset_len (loader_valid loaders) =? 0) eqn:Ev; [discriminate|].
  injection Hdt as <-. injection Hdv as <-.
  apply train_phase_observed in Ht as (trs & Ht & ->).
  apply valid_phase_observed in Hv as (vrs & Hv & ->).
  exists trs, st1, vrs, st2. split; [exact Ht|]. split; [exact Hv|].
  split; [apply Z.eqb_neq, Et|]. split; [apply Z.eqb_neq, Ev|].
  destruct (le _ vmin).
  - destruct H as (sd & _ & _ & _ & ->). apply elem_of_app. right. left.
  - destruct H as (_ & _ & ->). apply elem_of_app. right. left.
Qed.

End Means.

(** A toy epoch prints the weighted means of its records. *)
Lemma epoch_reports_weighted_means_witness :
  exists trs vrs,
    PrintEpoch 1 (PrimFloat.div (weighted_sum trs) (float_of_int 2))
                 (PrimFloat.div (weighted_sum vrs) (float_of_int 2))
    ∈ new_effects Toy.init
        (Toy.final (train_epoch (Toy.loaders [3%float]) Toy.model Toy.optimizer_scratch
                      tt true Toy.save_path Inf 1) Toy.init).
Proof.
  destruct (epoch_reports_weighted_means (Toy.loaders [3%float]) Toy.model
              Toy.optimizer_scratch tt true Toy.save_path Inf 1 Toy.init 3%float
              (Toy.final (train_epoch (Toy.loaders [3%float]) Toy.model Toy.optimizer_scratch
                            tt true Toy.save_path Inf 1) Toy.init))
    as (trs & st1 & vrs & st2 & _ & _ & _ & _ & H).
  - toy_run 0%float.
  - exists trs, vrs. exact H.
Defined.

(** The toy epoch: one training batch of two samples with loss [1.0] and
    one validation batch of two samples with loss [3.0]. *)
Example epoch_toy_report :
  take 4 (effects (Toy.final (train_epoch (Toy.loaders [3%float]) Toy.model
                                Toy.optimizer_scratch tt true Toy.save_path Inf 1) Toy.init))
  = [PrintTrainingBatch 0 1; PrintValidationBatch 0 1; PrintEpoch 1 1%float 3%float;
     PrintSaving Inf 3%float].
Proof. by_evaluation. Qed.

(** ** The test routine *)

Section Test.

Context {F : Framework}.

Variables (loaders : Loaders) (model : loc) (criterion : Criterion) (use_cuda : bool).

Lemma test_batch_observe (acc : TestAcc) (seen : list (BatchRecord * Z))
    (ib : Z * (Data * Target)) (st : State) :
  match observe_test_batch model criterion use_cuda seen ib st with
  | Ok (seen', st') =>
      exists r, seen' = seen ++ [r] /\
        test_batch model criterion use_cuda acc ib st = Ok (add_test_record acc r, st')
  | Raise e => test_batch model criterion use_cuda acc ib st = Raise e
  end.
Proof.
  unfold observe_test_batch, test_batch, bind.
  destruct (call model _ _) as [[o st1]|e]; [|reflexivity].
  eexists; split; reflexivity.
Qed.

Lemma fold_add_test_record (rs : list (BatchRecord * Z)) (acc : TestAcc) :
  let acc' := fold_left add_test_record rs acc in
  test_loss acc' =
    fold_left (fun a r => PrimFloat.add a (mul_int r.1 r.2)) (map fst rs) (test_loss acc) /\
  correct acc' =
    fold_left (fun a n => PrimFloat.add a (float_of_int n)) (map snd rs) (correct acc) /\
  total acc' =
    fold_left (fun a n => PrimFloat.add a (float_of_int n)) (map (fun r => r.1.2) rs) (total acc) /\
  correct_is_numpy acc' =
    match rs with [] => correct_is_numpy acc | _ => true end.
Proof.
  revert acc. induction rs as [|r rs IH]; intros acc; cbn.
  - auto.
  - destruct (IH (add_test_record acc r)) as (-> & -> & -> & ->).
    repeat split. destruct rs; reflexivity.
Qed.

Lemma test_batch_calm (acc : TestAcc) (ib : Z * (Data * Target)) :
  respects calm (test_batch model criterion use_cuda acc ib).
Proof.
  unfold test_batch. apply respects_bind; [apply calm_trans | apply call_calm |].
  intros o. apply respects_ret, calm_refl.
Qed.

(** The loop of [test] prints nothing. *)
Lemma call_silent (data : Data) :
  respects (fun st st' => effects st' = effects st) (call model data).
Proof.
  intros st o st' H. unfold call in H. destruct (heap st !! model); [|discriminate].
  injection H as _ <-. reflexivity.
Qed.

Lemma iterate_silent (loader : DataLoader) :
  respects (fun st st' => effects st' = effects st) (iterate loader).
Proof. intros st bs st' [= _ <-]. reflexivity. Qed.

Lemma test_loop_silent (l : list (Z * (Data * Target))) (acc : TestAcc) :
  respects (fun st st' => effects st' = effects st)
    (for_each (test_batch model criterion use_cuda) l acc).
Proof.
  apply respects_for_each; [reflexivity | intros st1 st2 st3 H1 H2; congruence |].
  intros s x. unfold test_batch.
  apply respects_bind; [intros st1 st2 st3 H1 H2; congruence | apply call_silent |].
  intros o. apply respects_ret. reflexivity.
Qed.

(** C5.  A call of [test] that returns has made one pass over the test
    loader, contributing the records [rs] (loss, number of samples, number
    of samples whose largest logit is at the label).  It printed exactly
    two lines: the mean loss, which is the sum of loss times number of
    samples divided by [len(loaders['test'].dataset)]; and the accuracy
    line, which shows [correct], the count of right predictions summed over
    the batches, [total], the number of samples summed over the batches,
    and the percentage [100. * correct / total] (each cut to an integer by
    [%d]).  Every parameter object is as before the call and no file was
    written.  (Sums, products and quotients are those of Python floats,
    the sums taken in batch order from [0.0].) *)
Theorem test_reports_accuracy_and_mean_loss (st st' : State) :
  test loaders model criterion use_cuda st = Ok (tt, st') ->
  exists rs st1 percent n_correct n_total,
    observed_test_phase loaders model criterion use_cuda st = Ok (rs, st1) /\
    int_of_float (float_sum (map snd rs)) = Ok n_correct /\
    int_of_float (float_sum (map (fun r => r.1.2) rs)) = Ok n_total /\
    int_of_float
      (PrimFloat.div (PrimFloat.mul 100%float (float_sum (map snd rs)))
         (float_sum (map (fun r => r.1.2) rs))) = Ok percent /\
    new_effects st st' =
      [PrintTestLoss
         (PrimFloat.div (weighted_sum (map fst rs))
            (float_of_int (dataset_len (loader_test loaders))));
       PrintTestAccuracy percent n_correct n_total] /\
    (forall l n, param_at st' l n = param_at st l n) /\
    files st' = files st.
Proof.
  unfold test, observed_test_phase. intros H.
  apply bind_Ok in H as (bs & st0 & Hit & H).
  apply bind_Ok in H as (acc & st1 & Hloop & H).
  apply bind_Ok in H as (mean & st2 & Hmean & H).
  apply bind_Ok in H as ([] & st3 & Hp1 & H).
  apply bind_Ok in H as (pct & st4 & Hpct & H).
  apply bind_Ok in H as (a & st5 & Ha & H).
  apply bind_Ok in H as (b & st6 & Hb & H).
  apply bind_Ok in H as (c & st7 & Hc & H).
  apply lift_Ok in Hmean as [Hmean ->]. apply lift_Ok in Hpct as [Hpct ->].
  apply lift_Ok in Ha as [Ha ->]. apply lift_Ok in Hb as [Hb ->].
  apply lift_Ok in Hc as [Hc ->].
  unfold print, modify in Hp1, H. injection Hp1 as <-. injection H as <-.
  pose proof (for_each_observe _ _ _ test_batch_observe (enumerate bs)
                (mkTestAcc 0%float 0%float false 0%float) [] st0) as Ho.
  destruct (for_each (observe_test_batch _ _ _) (enumerate bs) [] st0)
    as [[rs st1']|e] eqn:Hobs; [|rewrite Ho in Hloop; discriminate].
  destruct Ho as (rs' & -> & Ho). rewrite Ho in Hloop. injection Hloop as <- <-.
  cbn [app] in Hobs.
  destruct (fold_add_test_record rs' (mkTestAcc 0%float 0%float false 0%float))
    as (Htl & Hco & Hto & Hnp). cbn [test_loss correct total correct_is_numpy] in *.
  set (acc := fold_left add_test_record rs' _) in *.
  assert (Hcalm1 : calm st st0) by (eapply iterate_calm, Hit).
  assert (Hcalm2 : calm st0 st1').
  { eapply (respects_for_each calm calm_refl calm_trans
              (test_batch model criterion use_cuda)); [|exact Ho].
    intros s x. apply test_batch_calm. }
  destruct (calm_trans _ _ _ Hcalm1 Hcalm2) as (Hpar & _ & Hfiles & _).
  assert (Hes : effects st1' = effects st).
  { rewrite (test_loop_silent _ _ _ _ _ Ho). eapply iterate_silent, Hit. }
  unfold percentage in Hpct. rewrite Hco, Hto in Hpct. rewrite Hco in Hb. rewrite Hto in Hc.
  rewrite Htl in Hmean.
  unfold div_int in Hmean.
  destruct (dataset_len (loader_test loaders) =? 0); [discriminate|]. injection Hmean as <-.
  assert (Hpct' : PrimFloat.div (PrimFloat.mul 100%float (float_sum (map snd rs')))
                    (float_sum (map (fun r => r.1.2) rs')) = pct).
  { unfold float_sum. destruct (correct_is_numpy acc).
    - injection Hpct as <-. reflexivity.
    - unfold PyFloat.div in Hpct. destruct (PrimFloat.eqb _ _); [discriminate|].
      injection Hpct as <-. reflexivity. }
  exists rs', st1', a, b, c.
  split; [unfold bind; rewrite Hit; exact Hobs|].
  split; [exact Hb|]. split; [exact Hc|]. split; [rewrite Hpct'; exact Ha|].
  split; [|split].
  - apply new_effects_app. cbn. rewrite Hes, <- app_assoc. reflexivity.
  - intros l n. rewrite <- Hpar. reflexivity.
  - cbn. exact Hfiles.
Qed.

End Test.

(** A toy test pass prints the two lines. *)
Lemma test_reports_accuracy_and_mean_loss_witness :
  exists (rs : list (BatchRecord * Z)) percent n_correct n_total,
    new_effects Toy.init (Toy.final (test (Toy.loaders []) Toy.model tt true) Toy.init) =
      [PrintTestLoss (PrimFloat.div (weighted_sum (map fst rs)) (float_of_int 2));
       PrintTestAccuracy percent n_correct n_total].
Proof.
  destruct (test_reports_accuracy_and_mean_loss (Toy.loaders []) Toy.model tt true
              Toy.init (Toy.final (test (Toy.loaders []) Toy.model tt true) Toy.init))
    as (rs & _ & p & c & t & _ & _ & _ & _ & He & _).
  - toy_run tt.
  - exists rs, p, c, t. exact He.
Defined.

(** The toy test pass: one batch of two samples with loss [1.0], one of
    them predicted right. *)
Example test_toy_report :
  effects (Toy.final (test (Toy.loaders []) Toy.model tt true) Toy.init)
  = [PrintTestLoss 1%float; PrintTestAccuracy 50 1 2].
Proof. by_evaluation. Qed.

(** ** The checkpoint and the best epoch so far *)

Section Best.

Context {F : Framework}.

Variables (loaders : Loaders) (model : loc) (optimizer : SGD)
          (criterion : Criterion) (use_cuda : bool) (save_path : string).

Local Abbreviation epoch_valid_loss :=
  (epoch_valid_loss loaders model optimizer criterion use_cuda save_path).
Local Abbreviation epoch_state_dict :=
  (epoch_state_dict loaders model optimizer criterion use_cuda save_path).
Local Abbreviation best_so_far :=
  (best_so_far loaders model optimizer criterion use_cuda save_path).

Lemma epoch_valid_loss_unique (e : nat) (st0 : State) (vl1 vl2 : float) :
  epoch_valid_loss e st0 vl1 -> epoch_valid_loss e st0 vl2 -> vl1 = vl2.
Proof.
  intros (v1 & s1 & t1 & u1 & _ & Ha1 & Hl1) (v2 & s2 & t2 & u2 & _ & Ha2 & Hl2).
  rewrite Ha1 in Ha2. injection Ha2 as <- <-. rewrite Hl1 in Hl2. congruence.
Qed.

Lemma le_false_nan_or_gt (x y : float) :
  le x y = false -> PrimFloat.is_nan y = false ->
  PrimFloat.is_nan x = true \/ le y x = true.
Proof.
  intros Hle Hy. destruct (PrimFloat.is_nan x) eqn:Hx; [left; reflexivity|].
  right. destruct (le_total x y Hx Hy) as [H|H]; [congruence | exact H].
Qed.

Lemma best_so_far_holds (k : nat) (st0 : State) (vmin : float) (stk : State) :
  after_epochs k loaders model optimizer criterion use_cuda save_path st0 = Ok (vmin, stk) ->
  best_so_far k st0 vmin stk.
Proof.
  revert vmin stk. induction k as [|k IH]; intros vmin' st' H.
  - rewrite after_epochs_0 in H. injection H as <- <-. left.
    split; [reflexivity|]. split; [reflexivity|]. intros e vl He. lia.
  - pose proof H as HS. rewrite after_epochs_S in H.
    apply bind_Ok in H as (vmin & st & Hk & H).
    specialize (IH vmin st Hk).
    apply train_epoch_effects in H as (tl & vl & s & es & Hl & _ & Hheap & H).
    assert (Hnew : epoch_valid_loss (S k) st0 vl).
    { exists vmin, st, tl, s. split; [lia|].
      replace (S k - 1)%nat with k by lia. split; assumption. }
    assert (Hcases : forall e' vl', (1 <= e' <= S k)%nat -> epoch_valid_loss e' st0 vl' ->
                       (1 <= e' <= k)%nat \/ vl' = vl).
    { intros e' vl' He' Hv'. destruct (decide (e' = S k)) as [->|Hne].
      - right. eapply epoch_valid_loss_unique; eassumption.
      - left. lia. }
    destruct (le vl vmin) eqn:Hle.
    + destruct H as (sd & Hsd & -> & Hf & _).
      destruct (le_not_nan _ _ Hle) as [Hvl Hvmin].
      right. exists (S k), vl, sd.
      split; [lia|]. split; [exact Hnew|]. split.
      { exists vl, st'. split; [exact HS|]. unfold state_dict in *. rewrite Hheap.
        destruct (heap s !! model); [|discriminate]. injection Hsd as <-. reflexivity. }
      split; [exact Hvl|]. split; [rewrite Hf; apply lookup_insert_eq|].
      split; [reflexivity|].
      intros e' vl' He' Hv' Hnan'. destruct (Hcases e' vl' He' Hv') as [Hold| ->].
      * destruct IH as [(_ & _ & Hall)|(e & v & sd0 & _ & _ & _ & _ & _ & -> & Hmin)].
        -- rewrite (Hall e' vl' Hold Hv') in Hnan'. discriminate.
        -- eapply le_trans; [exact Hle | apply (Hmin e' vl' Hold Hv' Hnan')].
      * apply le_refl, Hvl.
    + destruct H as (-> & Hf & _).
      destruct IH as [(-> & Hfile & Hall)|(e & v & sd0 & He & Hv & Hsd0 & Hnan & Hfile & -> & Hmin)].
      * left. split; [reflexivity|]. split; [rewrite Hf; exact Hfile|].
        intros e' vl' He' Hv'. destruct (Hcases e' vl' He' Hv') as [Hold| ->].
        -- apply (Hall e' vl' Hold Hv').
        -- destruct (PrimFloat.is_nan vl) eqn:Hn; [reflexivity|].
           rewrite (le_Inf vl Hn) in Hle. discriminate.
      * right. exists e, v, sd0.
        split; [lia|]. split; [exact Hv|]. split; [exact Hsd0|]. split; [exact Hnan|].
        split; [rewrite Hf; exact Hfile|]. split; [reflexivity|].
        intros e' vl' He' Hv' Hnan'. destruct (Hcases e' vl' He' Hv') as [Hold| ->].
        -- apply (Hmin e' vl' Hold Hv' Hnan').
        -- destruct (le_false_nan_or_gt _ _ Hle Hnan) as [Hn|Hgt]; [congruence | exact Hgt].
Qed.

(** C3, as amended.  After [k] epochs of a run: no file other than
    [save_path] was touched and every save went to [save_path], so the
    run keeps at most one checkpoint file.  If every validation loss so
    far is a NaN the file at [save_path] is what it was before the run.
    Otherwise it holds the model's [state_dict()] as it was at the end of
    an epoch whose validation loss is not a NaN, equals the running
    minimum, and is less than or equal to every validation loss so far
    that is not a NaN. *)
Theorem checkpoint_is_best_epoch_so_far (k : nat) (st0 : State) (vmin : float) (stk : State) :
  after_epochs k loaders model optimizer criterion use_cuda save_path st0 = Ok (vmin, stk) ->
  (forall p, p <> save_path -> files stk !! p = files st0 !! p) /\
  Forall (fun s => s.1 = save_path) (saves (new_effects st0 stk)) /\
  ((forall e vl, (1 <= e <= k)%nat -> epoch_valid_loss e st0 vl ->
                 PrimFloat.is_nan vl = true) ->
   files stk !! save_path = files st0 !! save_path) /\
  (forall e0 vl0, (1 <= e0 <= k)%nat -> epoch_valid_loss e0 st0 vl0 ->
     PrimFloat.is_nan vl0 = false ->
     exists e vl sd,
       (1 <= e <= k)%nat /\ epoch_valid_loss e st0 vl /\ epoch_state_dict e st0 sd /\
       PrimFloat.is_nan vl = false /\
       files stk !! save_path = Some sd /\ vmin = vl /\
       forall e' vl', (1 <= e' <= k)%nat -> epoch_valid_loss e' st0 vl' ->
                      PrimFloat.is_nan vl' = false -> le vl vl' = true).
Proof.
  intros H. pose proof (best_so_far_holds k st0 vmin stk H) as Hbest.
  apply after_epochs_run_frame in H as (_ & _ & Hfiles & es & He & Hs).
  split; [exact Hfiles|]. split; [rewrite (new_effects_app _ _ _ He); exact Hs|].
  split.
  - intros Hall. destruct Hbest as [(_ & Hf & _)|(e & vl & sd & He' & Hv & _ & Hnan & _)].
    + exact Hf.
    + rewrite (Hall e vl He' Hv) in Hnan. discriminate.
  - intros e0 vl0 He0 Hv0 Hnan0.
    destruct Hbest as [(_ & _ & Hall)|Hb]; [|exact Hb].
    rewrite (Hall e0 vl0 He0 Hv0) in Hnan0. discriminate.
Qed.

End Best.

(** Three toy epochs with validation losses [3.0], [1.0], [2.0]: the
    checkpoint is the state of an epoch of the run. *)
Lemma checkpoint_is_best_epoch_so_far_witness :
  exists e sd,
    epoch_state_dict (Toy.loaders [3%float; 1%float; 2%float]) Toy.model
      Toy.optimizer_scratch tt true Toy.save_path e Toy.init sd /\
    files (Toy.final (Toy.epochs [3%float; 1%float; 2%float] 3) Toy.init) !! Toy.save_path
      = Some sd.
Proof.
  assert (H : Toy.epochs [3%float; 1%float; 2%float] 3 Toy.init
              = Ok (1%float, Toy.final (Toy.epochs [3%float; 1%float; 2%float] 3) Toy.init))
    by toy_run 0%float.
  destruct (checkpoint_is_best_epoch_so_far (Toy.loaders [3%float; 1%float; 2%float])
              Toy.model Toy.optimizer_scratch tt true Toy.save_path 3 Toy.init _ _ H)
    as (_ & _ & _ & Hbest).
  destruct (Hbest 1%nat 3%float) as (e & vl & sd & _ & _ & Hsd & _ & Hf & _).
  - lia.
  - exists Inf, Toy.init, 1%float, (Toy.final (Toy.losses [3%float; 1%float; 2%float]) Toy.init).
    split; [lia|]. split; [reflexivity | toy_run (0%float, 0%float)].
  - reflexivity.
  - exists e, sd. split; assumption.
Defined.

(** C3, as stated, fails: when the first validation loss is a NaN there is
    no checkpoint at all after the first epoch, whatever the claim says
    its contents correspond to; the second epoch then writes one. *)
Lemma nan_epoch_leaves_no_checkpoint :
  Toy.returns (Toy.epochs [nan; 1%float] 1) Toy.init = true /\
  effects (Toy.final (Toy.epochs [nan; 1%float] 1) Toy.init)
    = [PrintTrainingBatch 0 1; PrintValidationBatch 0 1; PrintEpoch 1 1%float nan] /\
  files (Toy.final (Toy.epochs [nan; 1%float] 1) Toy.init) !! Toy.save_path = None /\
  snd <$> files (Toy.final (Toy.epochs [nan; 1%float] 2) Toy.init) !! Toy.save_path = Some 4.
Proof. all_by_evaluation. Qed.

(** ** The shapes [Net] accepts *)

Section NetShapes.

Import Scratch.

Lemma out_size_conv3 (size : Z) : out_size size 3 1 1 = size.
Proof. unfold out_size. rewrite Z.div_1_r. lia. Qed.

Lemma out_size_pool2 (size : Z) : out_size size 2 2 0 = size / 2.
Proof.
  unfold out_size. replace (size + 2 * 0 - 2) with (size + (-1) * 2) by lia.
  rewrite Z.div_add by lia. lia.
Qed.

Lemma pow2_pools_pos (k : nat) : 0 < 2 ^ Z.of_nat k.
Proof. apply Z.pow_pos_nonneg; lia. Qed.

Lemma pow2_succ (k : nat) : 2 ^ Z.of_nat (S k) = 2 * 2 ^ Z.of_nat k.
Proof. rewrite Nat2Z.inj_succ. apply Z.pow_succ_r. lia. Qed.

Lemma half_reaches (size : Z) (k : nat) :
  (2 ^ Z.of_nat k <=? size / 2) = (2 ^ Z.of_nat (S k) <=? size).
Proof.
  rewrite pow2_succ. pose proof (pow2_pools_pos k) as HP.
  destruct (Z.leb_spec (2 ^ Z.of_nat k) (size / 2)) as [H|H];
    destruct (Z.leb_spec (2 * 2 ^ Z.of_nat k) size) as [H'|H'];
    try reflexivity; exfalso.
  - assert (2 * (size / 2) <= size) by (apply Z.mul_div_le; lia). lia.
  - assert (2 ^ Z.of_nat k <= size / 2); [|lia].
    apply Z.div_le_lower_bound; lia.
Qed.

Lemma half_div_pow (size : Z) (k : nat) :
  size / 2 / 2 ^ Z.of_nat k = size / 2 ^ Z.of_nat (S k).
Proof.
  rewrite pow2_succ. pose proof (pow2_pools_pos k).
  apply Z.div_div; lia.
Qed.

(** The shape after the layers [make_layers] builds, from any number of
    input channels. *)
Lemma make_layers_from_shape (model_cfg : list cfg_entry) (c n h w : Z) :
  2 <= n -> 1 <= h -> 1 <= w ->
  sequential_shape (make_layers_from c model_cfg) (Images n c h w) =
  if (2 ^ Z.of_nat (pools model_cfg) <=? h) && (2 ^ Z.of_nat (pools model_cfg) <=? w)
  then Some (Images n (last_width c model_cfg)
               (h / 2 ^ Z.of_nat (pools model_cfg)) (w / 2 ^ Z.of_nat (pools model_cfg)))
  else None.
Proof.
  intros Hn. revert c h w.
  induction model_cfg as [|[|l] rest IH]; intros c h w Hh Hw.
  - cbn [make_layers_from sequential_shape pools last_width].
    change (2 ^ Z.of_nat 0) with 1. rewrite !Z.div_1_r.
    destruct (Z.leb_spec 1 h); [|lia]. destruct (Z.leb_spec 1 w); [|lia]. reflexivity.
  - cbn [make_layers_from sequential_shape pools last_width layer_shape].
    rewrite !out_size_pool2.
    destruct (Z.ltb_spec 0 (h / 2)) as [Hh2|Hh2]; cbn [andb].
    + destruct (Z.ltb_spec 0 (w / 2)) as [Hw2|Hw2]; cbn [andb].
      * rewrite IH by lia. rewrite !half_reaches, !half_div_pow. reflexivity.
      * rewrite <- (half_reaches w). pose proof (pow2_pools_pos (pools rest)).
        destruct (Z.leb_spec (2 ^ Z.of_nat (pools rest)) (w / 2)); [lia|].
        rewrite andb_false_r. reflexivity.
    + rewrite <- (half_reaches h). pose proof (pow2_pools_pos (pools rest)).
      destruct (Z.leb_spec (2 ^ Z.of_nat (pools rest)) (h / 2)); [lia|]. reflexivity.
  - cbn [make_layers_from sequential_shape pools last_width layer_shape].
    rewrite !out_size_conv3, Z.eqb_refl.
    destruct (Z.ltb_spec 0 h); [|lia]. destruct (Z.ltb_spec 0 w); [|lia].
    cbn [andb]. rewrite Z.eqb_refl.
    destruct (Z.ltb_spec 1 (n * h * w)) as [_|Hbn]; [|nia].
    cbn [andb]. apply IH; assumption.
Qed.

(** X1.  The feature extractor [make_layers(model_cfg)], for a configuration
    of positive widths, takes batches of at least two RGB images exactly
    when both sides of the images are at
    least [2 ^ k] pixels, [k] being the number of ['M'] entries; it then
    yields [last_width] channels of [h / 2 ^ k] by [w / 2 ^ k]. *)
Theorem make_layers_shape (model_cfg : list cfg_entry) (n h w : Z) :
  positive_widths model_cfg = true ->
  2 <= n -> 1 <= h -> 1 <= w ->
  sequential_shape (make_layers model_cfg) (Images n 3 h w) =
  if (2 ^ Z.of_nat (pools model_cfg) <=? h) && (2 ^ Z.of_nat (pools model_cfg) <=? w)
  then Some (Images n (last_width 3 model_cfg)
               (h / 2 ^ Z.of_nat (pools model_cfg)) (w / 2 ^ Z.of_nat (pools model_cfg)))
  else None.
Proof. intros _ Hn Hh Hw. apply make_layers_from_shape; assumption. Qed.

(** X2.  [Net(model_cfg).forward] on a batch of at least two RGB images that
    the feature extractor takes: it returns [num_classes] scores per image
    when the feature maps flatten to exactly [128 * 7 * 7] numbers, and
    raises otherwise, whatever the positive widths in [model_cfg] are: the
    width of the first linear layer does not follow the configuration. *)
Theorem Net_forward_shape (model_cfg : list cfg_entry) (n h w : Z) :
  positive_widths model_cfg = true ->
  2 <= n ->
  2 ^ Z.of_nat (pools model_cfg) <= h ->
  2 ^ Z.of_nat (pools model_cfg) <= w ->
  forward (Net_init model_cfg) (Images n 3 h w) =
  if last_width 3 model_cfg * (h / 2 ^ Z.of_nat (pools model_cfg))
       * (w / 2 ^ Z.of_nat (pools model_cfg)) =? 128 * 7 * 7
  then Some (Rows n num_classes)
  else None.
Proof.
  intros _ Hn Hh Hw. pose proof (pow2_pools_pos (pools model_cfg)) as HP.
  unfold forward, Net_init. cbn [features classifier]. unfold make_layers.
  rewrite make_layers_from_shape by lia.
  destruct (Z.leb_spec (2 ^ Z.of_nat (pools model_cfg)) h); [|lia].
  destruct (Z.leb_spec (2 ^ Z.of_nat (pools model_cfg)) w); [|lia].
  cbn [andb view_rows]. destruct (Z.eqb_spec n 0); [lia|].
  cbn [sequential_shape layer_shape].
  destruct (_ =? 128 * 7 * 7); reflexivity.
Qed.

End NetShapes.

(** The default configuration on batches of ten 224 by 224 images. *)
Lemma make_layers_shape_witness :
  Scratch.sequential_shape (Scratch.make_layers Scratch.cfg) (Scratch.Images 10 3 224 224)
  = Some (Scratch.Images 10 128 7 7).
Proof.
  rewrite (make_layers_shape Scratch.cfg 10 224 224); [reflexivity | reflexivity | lia | lia | lia].
Defined.

(** The default configuration takes 224 by 224 images; a configuration
    that ends with 64 channels does not. *)
Lemma Net_forward_shape_witness :
  Scratch.forward (Scratch.Net_init Scratch.cfg) (Scratch.Images 10 3 224 224)
    = Some (Scratch.Rows 10 133) /\
  Scratch.forward (Scratch.Net_init [Scratch.Width 64; Scratch.Pool])
    (Scratch.Images 10 3 224 224) = None.
Proof.
  split.
  - rewrite (Net_forward_shape Scratch.cfg 10 224 224);
      [reflexivity | reflexivity | lia | | ]; vm_compute; discriminate.
  - rewrite (Net_forward_shape [Scratch.Width 64; Scratch.Pool] 10 224 224);
      [reflexivity | reflexivity | lia | | ]; vm_compute; discriminate.
Defined.

(** ** Empty datasets *)

Section EmptyData.

Context {F : Framework}.

Variables (loaders : Loaders) (model : loc) (optimizer : SGD)
          (criterion : Criterion) (use_cuda : bool) (save_path : string).

Lemma bind_Raise {A B} (m : M A) (k : A -> M B) (st : State) (e : exn) :
  m st = Raise e -> bind m k st = Raise e.
Proof. intros H. unfold bind. rewrite H. reflexivity. Qed.

Lemma bind_Ok_eq {A B} (m : M A) (k : A -> M B) (st : State) (a : A) (st1 : State) :
  m st = Ok (a, st1) -> bind m k st = k a st1.
Proof. intros H. unfold bind. rewrite H. reflexivity. Qed.

Lemma succeeds_train_phase :
  succeeds (live model) (train_phase loaders model optimizer criterion use_cuda).
Proof.
  unfold train_phase. apply succeeds_bind; [apply succeeds_iterate|]. intros bs.
  apply succeeds_for_each. intros s a. apply succeeds_train_batch.
Qed.

Lemma succeeds_valid_phase :
  succeeds (live model) (valid_phase loaders model criterion use_cuda).
Proof.
  unfold valid_phase. apply succeeds_bind; [apply succeeds_iterate|]. intros bs.
  apply succeeds_for_each. intros s a. apply succeeds_valid_batch.
Qed.

Lemma div_int_zero (x : float) (st : State) :
  lift (div_int x 0) st = Raise ZeroDivisionError.
Proof. reflexivity. Qed.

Lemma epoch_losses_raises (st : State) :
  live model st ->
  dataset_len (loader_train loaders) = 0 \/ dataset_len (loader_valid loaders) = 0 ->
  epoch_losses loaders model optimizer criterion use_cuda st = Raise ZeroDivisionError.
Proof.
  intros Hlive Hlen. unfold epoch_losses.
  destruct (succeeds_train_phase st Hlive) as (tl & st1 & Ht & Hlive1).
  rewrite (bind_Ok_eq _ _ _ _ _ Ht).
  destruct (succeeds_valid_phase st1 Hlive1) as (vl & st2 & Hv & _).
  rewrite (bind_Ok_eq _ _ _ _ _ Hv).
  destruct (Z.eq_dec (dataset_len (loader_train loaders)) 0) as [E|E].
  - rewrite E. apply bind_Raise, div_int_zero.
  - destruct Hlen as [Hlen|Hlen]; [contradiction|].
    unfold bind at 1, lift at 1, div_int at 1. apply Z.eqb_neq in E. rewrite E.
    rewrite Hlen. apply bind_Raise, div_int_zero.
Qed.

(** X3.  When the training or the validation dataset is empty, a call of
    [train] for at least one epoch runs the two loops of the first epoch
    and then raises [ZeroDivisionError] at the division by the dataset
    size; it never returns. *)
Theorem train_raises_on_empty_dataset (n_epochs : Z) (st : State) :
  is_Some (heap st !! model) ->
  1 <= n_epochs ->
  dataset_len (loader_train loaders) = 0 \/ dataset_len (loader_valid loaders) = 0 ->
  train n_epochs loaders model optimizer criterion use_cuda save_path st
    = Raise ZeroDivisionError.
Proof.
  intros Hlive Hn Hlen. rewrite train_first_epoch by exact Hn.
  apply bind_Raise. rewrite after_epochs_S. unfold bind at 1. rewrite after_epochs_0.
  unfold train_epoch. apply bind_Raise, epoch_losses_raises; assumption.
Qed.

Lemma succeeds_test_batch (acc : TestAcc) (ib : Z * (Data * Target)) :
  succeeds (live model) (test_batch model criterion use_cuda acc ib).
Proof.
  unfold test_batch. apply succeeds_bind; [apply succeeds_call|]. intros o.
  apply succeeds_ret.
Qed.

(** X4.  [test] raises [ZeroDivisionError] when the test loader yields no
    batch (at [100. * correct / total], after the loss line if the dataset
    is not empty), and when the test dataset is empty (at the division of
    the loss). *)
Theorem test_raises_without_samples (st : State) :
  (batches (loader_test loaders) (world st)).1 = [] \/
  (is_Some (heap st !! model) /\ dataset_len (loader_test loaders) = 0) ->
  test loaders model criterion use_cuda st = Raise ZeroDivisionError.
Proof.
  intros [Hnil|[Hlive Hlen]]; unfold test.
  - unfold bind at 1, iterate at 1. rewrite Hnil. cbn [enumerate enumerate_from for_each].
    unfold bind at 1, ret at 1. unfold bind at 1, lift at 1, div_int.
    cbn [test_loss]. destruct (dataset_len (loader_test loaders) =? 0); reflexivity.
  - destruct (succeeds_iterate model (loader_test loaders) st Hlive) as (bs & st1 & Hit & Hl1).
    rewrite (bind_Ok_eq _ _ _ _ _ Hit).
    destruct (succeeds_for_each (live model) (test_batch model criterion use_cuda)
                (enumerate bs) (mkTestAcc 0%float 0%float false 0%float)
                succeeds_test_batch st1 Hl1) as (acc & st2 & Hloop & _).
    rewrite (bind_Ok_eq _ _ _ _ _ Hloop). rewrite Hlen.
    apply bind_Raise, div_int_zero.
Qed.

End EmptyData.

Lemma train_raises_on_empty_dataset_witness :
  train 1 Toy.loaders_no_valid Toy.model Toy.optimizer_scratch tt true Toy.save_path Toy.init
    = Raise ZeroDivisionError.
Proof.
  apply train_raises_on_empty_dataset.
  - exists Toy.net. by_evaluation.
  - lia.
  - right. reflexivity.
Defined.

Lemma test_raises_without_samples_witness :
  test Toy.loaders_no_test Toy.model tt true Toy.init = Raise ZeroDivisionError.
Proof. apply test_raises_without_samples. left. reflexivity. Defined.

(** ** The running minimum *)

Section RunningMinimum.

Context {F : Framework}.

Variables (loaders : Loaders) (model : loc) (optimizer : SGD)
          (criterion : Criterion) (use_cuda : bool) (save_path : string).

Local Abbreviation epochs k :=
  (after_epochs k loaders model optimizer criterion use_cuda save_path).

Lemma running_minimum_not_nan (k : nat) (st0 : State) (vmin : float) (st : State) :
  epochs k st0 = Ok (vmin, st) -> PrimFloat.is_nan vmin = false.
Proof.
  revert vmin st. induction k as [|k IH]; intros vmin' st' H.
  - rewrite after_epochs_0 in H. injection H as <- _. reflexivity.
  - rewrite after_epochs_S in H. apply bind_Ok in H as (vmin & st & Hk & H).
    apply train_epoch_inv in H as (tl & vl & s & _ & H).
    destruct (le vl vmin) eqn:Hle.
    + destruct H as (sd & _ & -> & _). apply (le_not_nan _ _ Hle).
    + destruct H as (-> & _). eapply IH, Hk.
Qed.

Lemma running_minimum_step (k : nat) (st0 : State) (v v' : float) (st st' : State) :
  epochs k st0 = Ok (v, st) -> epochs (S k) st0 = Ok (v', st') -> le v' v = true.
Proof.
  intros Hk HS. rewrite after_epochs_S in HS. apply bind_Ok in HS as (v0 & s0 & Hk' & H).
  rewrite Hk in Hk'. injection Hk' as <- <-.
  apply train_epoch_inv in H as (tl & vl & s & _ & H).
  destruct (le vl v) eqn:Hle.
  - destruct H as (sd & _ & -> & _). exact Hle.
  - destruct H as (-> & _). apply le_refl. eapply running_minimum_not_nan, Hk.
Qed.

Lemma epochs_prefix (j k : nat) (st0 : State) (v : float) (st : State) :
  (j <= k)%nat -> epochs k st0 = Ok (v, st) ->
  exists vj stj, epochs j st0 = Ok (vj, stj).
Proof.
  intros Hjk. revert v st. induction Hjk as [|k Hjk IH]; intros v st H.
  - eauto.
  - rewrite after_epochs_S in H. apply bind_Ok in H as (v0 & s0 & Hk & _).
    eapply IH, Hk.
Qed.

(** X5.  The running minimum [valid_loss_min] is never a NaN and never goes
    up: after more epochs of the same run it is less than or equal to what
    it was after fewer. *)
Theorem running_minimum_decreases (j k : nat) (st0 : State) (vj vk : float)
    (stj stk : State) :
  (j <= k)%nat ->
  epochs j st0 = Ok (vj, stj) ->
  epochs k st0 = Ok (vk, stk) ->
  PrimFloat.is_nan vk = false /\ le vk vj = true.
Proof.
  intros Hjk Hj Hk. split; [eapply running_minimum_not_nan, Hk|].
  revert vk stk Hk. induction Hjk as [|k Hjk IH]; intros vk stk Hk.
  - rewrite Hj in Hk. injection Hk as <- _.
    apply le_refl. eapply running_minimum_not_nan, Hj.
  - destruct (epochs_prefix k (S k) st0 vk stk) as (v & s & Hv); [lia | exact Hk |].
    eapply le_trans; [eapply running_minimum_step; eassumption | eapply IH, Hv].
Qed.

End RunningMinimum.

Lemma running_minimum_decreases_witness :
  le 1%float 3%float = true.
Proof.
  refine (proj2 (running_minimum_decreases (Toy.loaders [3%float; 1%float; 2%float])
                   Toy.model Toy.optimizer_scratch tt true Toy.save_path 1 3 Toy.init
                   3%float 1%float
                   (Toy.final (Toy.epochs [3%float; 1%float; 2%float] 1) Toy.init)
                   (Toy.final (Toy.epochs [3%float; 1%float; 2%float] 3) Toy.init)
                   _ _ _)).
  - lia.
  - toy_run 0%float.
  - toy_run 0%float.
Defined.

(** ** What a run prints *)

Section Printed.

Context {F : Framework}.

Variables (loaders : Loaders) (model : loc) (optimizer : SGD)
          (criterion : Criterion) (use_cuda : bool) (save_path : string).

Lemma range_head (a b : Z) : a < b -> range a b = a :: range (a + 1) b.
Proof.
  intros H. unfold range.
  replace (Z.to_nat (b - a)) with (S (Z.to_nat (b - (a + 1)))) by lia.
  cbn [seq map]. f_equal; [lia|]. rewrite <- seq_shift, map_map.
  apply map_ext. intros k. lia.
Qed.

Lemma train_batch_effects (s : float) (ib : Z * (Data * Target)) (st : State)
    (s' : float) (st' : State) :
  train_batch loaders model optimizer criterion use_cuda s ib st = Ok (s', st') ->
  effects st' = effects st ++
    (if ib.1 mod 200 =? 0
     then [PrintTrainingBatch ib.1 (loader_len (loader_train loaders))] else []).
Proof.
  unfold train_batch, bind, zero_grad, backward, step, modify.
  destruct (call model _ _) as [[o st1]|e] eqn:Hc; [|discriminate].
  apply call_silent in Hc. cbn in Hc.
  destruct (ib.1 mod 200 =? 0); intros [= _ <-]; cbn; rewrite Hc;
    [reflexivity | symmetry; apply app_nil_r].
Qed.

Lemma valid_batch_effects (s : float) (ib : Z * (Data * Target)) (st : State)
    (s' : float) (st' : State) :
  valid_batch loaders model criterion use_cuda s ib st = Ok (s', st') ->
  effects st' = effects st ++
    (if ib.1 mod 200 =? 0
     then [PrintValidationBatch ib.1 (loader_len (loader_valid loaders))] else []).
Proof.
  unfold valid_batch, bind.
  destruct (call model _ _) as [[o st1]|e] eqn:Hc; [|discriminate].
  apply call_silent in Hc.
  destruct (ib.1 mod 200 =? 0); intros [= _ <-]; cbn; rewrite Hc;
    [reflexivity | symmetry; apply app_nil_r].
Qed.

(** A loop whose body prints [line i] exactly at the indices [i] that are
    multiples of 200 prints those lines in order. *)
Lemma loop_progress {S} (body : S -> Z * (Data * Target) -> M S) (line : Z -> Effect) :
  (forall s ib st s' st',
     body s ib st = Ok (s', st') ->
     effects st' = effects st ++ (if ib.1 mod 200 =? 0 then [line ib.1] else [])) ->
  forall bs i s st s' st',
    for_each body (enumerate_from i bs) s st = Ok (s', st') ->
    effects st' = effects st ++
      map line (List.filter (fun j => j mod 200 =? 0) (range i (i + Z.of_nat (length bs)))).
Proof.
  intros Hbody. induction bs as [|b bs IH]; intros i s st s' st' H.
  - injection H as _ <-. rewrite range_empty by (cbn; lia). symmetry. apply app_nil_r.
  - cbn [enumerate_from for_each] in H. apply bind_Ok in H as (s1 & st1 & H1 & H2).
    apply Hbody in H1. apply IH in H2. cbn [fst] in H1.
    rewrite range_head by (cbn [length]; lia).
    replace (i + Z.of_nat (length (b :: bs))) with (i + 1 + Z.of_nat (length bs))
      by (cbn [length]; lia).
    rewrite H2, H1, <- app_assoc. f_equal. cbn [List.filter].
    destruct (i mod 200 =? 0); reflexivity.
Qed.

Lemma train_phase_effects (st : State) (tl : float) (st' : State) :
  train_phase loaders model optimizer criterion use_cuda st = Ok (tl, st') ->
  effects st' = effects st ++
    map (fun i => PrintTrainingBatch i (loader_len (loader_train loaders)))
      (progress_indices (length (batches (loader_train loaders) (world st)).1)).
Proof.
  unfold train_phase. intros H. apply bind_Ok in H as (bs & st1 & Hit & H).
  injection Hit as <- <-.
  apply (loop_progress _ (fun i => PrintTrainingBatch i (loader_len (loader_train loaders)))
           train_batch_effects) in H.
  exact H.
Qed.

Lemma valid_phase_effects (st : State) (vl : float) (st' : State) :
  valid_phase loaders model criterion use_cuda st = Ok (vl, st') ->
  effects st' = effects st ++
    map (fun i => PrintValidationBatch i (loader_len (loader_valid loaders)))
      (progress_indices (length (batches (loader_valid loaders) (world st)).1)).
Proof.
  unfold valid_phase. intros H. apply bind_Ok in H as (bs & st1 & Hit & H).
  injection Hit as <- <-.
  apply (loop_progress _ (fun i => PrintValidationBatch i (loader_len (loader_valid loaders)))
           valid_batch_effects) in H.
  exact H.
Qed.

Lemma epoch_losses_effects (st : State) (tl vl : float) (st' : State) :
  epoch_losses loaders model optimizer criterion use_cuda st = Ok ((tl, vl), st') ->
  exists tl0 st1,
    train_phase loaders model optimizer criterion use_cuda st = Ok (tl0, st1) /\
    new_effects st st' =
      map (fun i => PrintTrainingBatch i (loader_len (loader_train loaders)))
        (progress_indices (length (batches (loader_train loaders) (world st)).1)) ++
      map (fun i => PrintValidationBatch i (loader_len (loader_valid loaders)))
        (progress_indices (length (batches (loader_valid loaders) (world st1)).1)).
Proof.
  unfold epoch_losses. intros H.
  apply bind_Ok in H as (tl0 & st1 & Ht & H).
  apply bind_Ok in H as (vl0 & st2 & Hv & H).
  apply bind_Ok in H as (tl1 & st3 & Hdt & H).
  apply bind_Ok in H as (vl1 & st4 & Hdv & H).
  apply lift_Ok in Hdt as [_ ->]. apply lift_Ok in Hdv as [_ ->]. injection H as _ _ <-.
  exists tl0, st1. split; [exact Ht|].
  apply new_effects_app. rewrite (valid_phase_effects _ _ _ Hv), (train_phase_effects _ _ _ Ht).
  symmetry. apply app_assoc.
Qed.

(** X6.  The two inner loops of an epoch print one progress line for each
    batch whose index is a multiple of 200 and nothing else: first those of
    the training batches in order, then those of the validation batches,
    each with the number of batches of its loader. *)
Theorem progress_lines_every_200 (st : State) (tl vl : float) (st' : State) :
  epoch_losses loaders model optimizer criterion use_cuda st = Ok ((tl, vl), st') ->
  exists tl0 st1,
    train_phase loaders model optimizer criterion use_cuda st = Ok (tl0, st1) /\
    new_effects st st' =
      map (fun i => PrintTrainingBatch i (loader_len (loader_train loaders)))
        (progress_indices (length (batches (loader_train loaders) (world st)).1)) ++
      map (fun i => PrintValidationBatch i (loader_len (loader_valid loaders)))
        (progress_indices (length (batches (loader_valid loaders) (world st1)).1)).
Proof. apply epoch_losses_effects. Qed.

Lemma epoch_numbers_app (es1 es2 : list Effect) :
  epoch_numbers (es1 ++ es2) = epoch_numbers es1 ++ epoch_numbers es2.
Proof. unfold epoch_numbers. apply flat_map_app. Qed.

Lemma batch_lines_plain (line : Z -> Effect) (l : list Z) :
  (forall i, epoch_numbers [line i] = [] /\ saves [line i] = []) ->
  epoch_numbers (map line l) = [] /\ saves (map line l) = [].
Proof.
  intros Hline. induction l as [|i l [IH1 IH2]]; [split; reflexivity|].
  destruct (Hline i) as [H1 H2].
  change (map line (i :: l)) with ([line i] ++ map line l).
  rewrite epoch_numbers_app, saves_app, H1, H2, IH1, IH2. split; reflexivity.
Qed.

Lemma after_epochs_printed (k : nat) (st0 : State) (vmin : float) (st : State) :
  after_epochs k loaders model optimizer criterion use_cuda save_path st0 = Ok (vmin, st) ->
  exists es, effects st = effects st0 ++ es /\
    epoch_numbers es = range 1 (Z.of_nat k + 1) /\
    (length (saves es) <= k)%nat.
Proof.
  revert vmin st. induction k as [|k IH]; intros vmin' st' H.
  - rewrite after_epochs_0 in H. injection H as _ <-. exists [].
    split; [symmetry; apply app_nil_r|]. split; [reflexivity | cbn; lia].
  - rewrite after_epochs_S in H. apply bind_Ok in H as (vmin & st & Hk & H).
    destruct (IH _ _ Hk) as (es & He & Hnum & Hsav).
    apply train_epoch_inv in H as (tl & vl & s & Hl & H).
    destruct (epoch_losses_effects _ _ _ _ Hl) as (tl0 & st1 & _ & Hnew).
    destruct (epoch_losses_training _ _ _ _ _ _ _ _ Hl) as (_ & _ & _ & es1 & He1 & _).
    rewrite (new_effects_app _ _ _ He1) in Hnew.
    destruct (batch_lines_plain
                (fun i => PrintTrainingBatch i (loader_len (loader_train loaders)))
                (progress_indices (length (batches (loader_train loaders) (world st)).1)))
      as [Hn1 Hs1]; [intros i; split; reflexivity|].
    destruct (batch_lines_plain
                (fun i => PrintValidationBatch i (loader_len (loader_valid loaders)))
                (progress_indices (length (batches (loader_valid loaders) (world st1)).1)))
      as [Hn2 Hs2]; [intros i; split; reflexivity|].
    assert (Hes1 : epoch_numbers es1 = [] /\ saves es1 = []).
    { rewrite Hnew, epoch_numbers_app, saves_app, Hn1, Hn2, Hs1, Hs2. split; reflexivity. }
    destruct Hes1 as [Hn Hs]. rewrite range_snoc.
    destruct (le vl vmin).
    + destruct H as (sd & _ & _ & ->).
      exists (es ++ es1 ++ [PrintEpoch (Z.of_nat (S k)) tl vl; PrintSaving vmin vl;
                             TorchSave save_path sd]).
      split; [cbn; rewrite He1, He, <- !app_assoc; reflexivity|].
      rewrite !epoch_numbers_app, !saves_app, Hn, Hs, Hnum, !length_app. cbn.
      split; [reflexivity | lia].
    + destruct H as (_ & ->).
      exists (es ++ es1 ++ [PrintEpoch (Z.of_nat (S k)) tl vl]).
      split; [cbn; rewrite He1, He, <- !app_assoc; reflexivity|].
      rewrite !epoch_numbers_app, !saves_app, Hn, Hs, Hnum, !length_app. cbn.
      split; [reflexivity | lia].
Qed.

(** X7.  A call of [train] that returns has printed exactly one summary line
    per epoch, numbered [1] to [n_epochs] in this order, and has saved the
    model at most once per epoch. *)
Theorem train_prints_one_line_per_epoch (n_epochs : Z) (st0 : State) (r : loc) (st : State) :
  train n_epochs loaders model optimizer criterion use_cuda save_path st0 = Ok (r, st) ->
  epoch_numbers (new_effects st0 st) = range 1 (n_epochs + 1) /\
  Z.of_nat (length (saves (new_effects st0 st))) <= Z.max 0 n_epochs.
Proof.
  intros H. rewrite train_after_epochs in H. apply bind_Ok in H as (v & st1 & H & [= _ <-]).
  apply after_epochs_printed in H as (es & He & Hnum & Hsav).
  rewrite (new_effects_app _ _ _ He), Hnum. split; [|lia].
  unfold range. f_equal. f_equal. lia.
Qed.

End Printed.

Lemma progress_lines_every_200_witness :
  exists tl0 st1,
    train_phase (Toy.loaders [3%float]) Toy.model Toy.optimizer_scratch tt true Toy.init
      = Ok (tl0, st1) /\
    new_effects Toy.init (Toy.final (Toy.losses [3%float]) Toy.init) =
      map (fun i => PrintTrainingBatch i 1) (progress_indices 1) ++
      map (fun i => PrintValidationBatch i 1)
        (progress_indices (length (batches (Toy.valid_loader [3%float]) (world st1)).1)).
Proof.
  refine (progress_lines_every_200 (Toy.loaders [3%float]) Toy.model Toy.optimizer_scratch
            tt true Toy.init 1%float 3%float _ _).
  toy_run (0%float, 0%float).
Defined.

Lemma train_prints_one_line_per_epoch_witness :
  epoch_numbers
    (new_effects Toy.init
       (Toy.final (train 2 (Toy.loaders [1%float; 1%float]) Toy.model Toy.optimizer_scratch
                     tt true Toy.save_path) Toy.init))
    = range 1 (2 + 1).
Proof.
  refine (proj1 (train_prints_one_line_per_epoch (Toy.loaders [1%float; 1%float]) Toy.model
                   Toy.optimizer_scratch tt true Toy.save_path 2 Toy.init Toy.model _ _)).
  toy_run Toy.model.
Defined.

(** ** The cells before [train] in the transfer notebook *)

Section TransferSetup.

Context {F : Framework}.

Lemma fold_update_in (f : Param -> Param) (G : list (loc * string))
    (h : gmap loc Module) (l : loc) (n : string) :
  NoDup G -> (l, n) ∈ G ->
  heap_param (fold_left (update_param f) G h) l n = f <$> heap_param h l n.
Proof.
  intros Hnd. revert h. induction Hnd as [|r G Hr Hnd IH]; intros h Hin.
  - apply elem_of_nil in Hin as [].
  - cbn [fold_left]. apply elem_of_cons in Hin as [<-|Hin].
    + rewrite fold_update_outside by exact Hr. rewrite heap_param_update.
      rewrite decide_True by reflexivity. reflexivity.
    + rewrite IH by exact Hin. rewrite heap_param_update.
      rewrite decide_False; [reflexivity|]. intros ->. contradiction.
Qed.

(** The references [submodule_parameters] returns, exactly. *)
Lemma submodule_parameters_exact (sub : string -> bool) (model : loc)
    (st : State) (ps : list (loc * string)) (st' : State) :
  submodule_parameters sub model st = Ok (ps, st') ->
  st' = st /\ NoDup ps /\
  forall l n, (l, n) ∈ ps <->
              l = model /\ sub n = true /\ is_Some (param_at st model n).
Proof.
  unfold submodule_parameters, param_at, heap_param.
  destruct (heap st !! model) as [m|]; [|discriminate].
  intros [= <- <-]. split; [reflexivity|].
  change (map fst (map_to_list (named_parameters m)))
    with ((map_to_list (named_parameters m)).*1).
  change (map (fun n => (model, n))
            (filter (fun n => sub n = true) (map_to_list (named_parameters m)).*1))
    with ((fun n => (model, n)) <$>
            filter (fun n => sub n = true) (map_to_list (named_parameters m)).*1).
  split.
  - apply NoDup_fmap_2; [intros x y [= ->]; reflexivity|].
    apply NoDup_filter, NoDup_fst_map_to_list.
  - intros l n. rewrite list_elem_of_fmap. split.
    + intros (n' & [= -> ->] & Hin). apply list_elem_of_filter in Hin as [Hs Hin].
      apply list_elem_of_fmap in Hin as ([k p] & -> & Hin).
      apply elem_of_map_to_list in Hin. cbn. rewrite Hin. eauto.
    + intros (-> & Hs & [p Hp]). exists n. split; [reflexivity|].
      apply list_elem_of_filter. split; [exact Hs|].
      apply list_elem_of_fmap. exists (n, p). split; [reflexivity|].
      apply elem_of_map_to_list, Hp.
Qed.

(** X8.  [optimizer_transfer] is built over exactly the parameters of the
    classifier of [model_transfer], each once, with the learning rate of the
    notebook; a step of it applies one SGD update to each of them and
    leaves the state unchanged otherwise than in the store. *)
Theorem optimizer_transfer_group (model_transfer : loc) (st st' : State)
    (optimizer_tr : SGD) :
  optimizer_transfer model_transfer st = Ok (optimizer_tr, st') ->
  st' = st /\
  lr optimizer_tr = learning_rate /\
  NoDup (param_group optimizer_tr) /\
  (forall l n, (l, n) ∈ param_group optimizer_tr <->
               l = model_transfer /\ is_classifier n = true /\
               is_Some (param_at st model_transfer n)) /\
  (forall s s' n,
     step optimizer_tr s = Ok (tt, s') ->
     is_classifier n = true -> is_Some (param_at st model_transfer n) ->
     param_at s' model_transfer n = sgd_param learning_rate <$> param_at s model_transfer n).
Proof.
  unfold optimizer_transfer. intros H. apply bind_Ok in H as (ps & st1 & Hps & H).
  apply submodule_parameters_exact in Hps as (-> & Hnd & Hin).
  unfold optim_SGD in H. destruct ps as [|p ps]; [discriminate|].
  injection H as <- <-. cbn [lr param_group].
  split; [reflexivity|]. split; [reflexivity|]. split; [exact Hnd|]. split; [exact Hin|].
  intros s s' n [= <-] Hc Hn.
  assert (Hi : (model_transfer, n) ∈ p :: ps) by (apply Hin; auto).
  exact (fold_update_in (sgd_param learning_rate) (p :: ps) (heap s)
           model_transfer n Hnd Hi).
Qed.


Lemma freeze_features_char (model_transfer : loc) (st st' : State) (l : loc) (n : string) :
  freeze_features model_transfer st = Ok (tt, st') ->
  param_at st' l n =
  if decide (l = model_transfer /\ is_features n = true)
  then set_require_grad <$> param_at st l n
  else param_at st l n.
Proof.
  unfold freeze_features. intros H. apply bind_Ok in H as (ps & st1 & Hps & H).
  apply submodule_parameters_exact in Hps as (-> & Hnd & Hin). injection H as <-.
  change (param_at (set_heap (fold_left (update_param set_require_grad) ps (heap st)) st) l n =
          if decide (l = model_transfer /\ is_features n = true)
          then set_require_grad <$> param_at st l n
          else param_at st l n).
  unfold param_at. cbn [heap set_heap].
  destruct (decide ((l, n) ∈ ps)) as [Hi|Hi].
  - rewrite (fold_update_in _ _ _ _ _ Hnd Hi). apply Hin in Hi as (-> & Hf & _).
    rewrite decide_True by auto. reflexivity.
  - rewrite (fold_update_outside _ _ _ _ _ Hi). destruct (decide _) as [[-> Hf]|_]; [|reflexivity].
    destruct (heap_param (heap st) model_transfer n) as [p|] eqn:Hp; [|reflexivity].
    exfalso. apply Hi, Hin. unfold param_at. rewrite Hp. eauto.
Qed.

(** X10.  The "freeze" cell sets the attribute [require_grad] of every
    parameter under [features.] of [model_transfer] and changes nothing
    else: in particular [requires_grad], which the framework reads, stays
    as it was for every parameter, so no gradient is frozen. *)
Theorem freeze_features_sets_stray_attribute (model_transfer : loc) (st st' : State) :
  freeze_features model_transfer st = Ok (tt, st') ->
  (forall l n,
     param_at st' l n =
     if decide (l = model_transfer /\ is_features n = true)
     then set_require_grad <$> param_at st l n
     else param_at st l n) /\
  (forall l n, requires_grad <$> param_at st' l n = requires_grad <$> param_at st l n) /\
  world st' = world st /\ files st' = files st /\ effects st' = effects st.
Proof.
  intros H. split; [intros l n; apply freeze_features_char, H|].
  split.
  - intros l n. rewrite (freeze_features_char _ _ _ l n H). destruct (decide _); [|reflexivity].
    destruct (param_at st l n); reflexivity.
  - unfold freeze_features in H. apply bind_Ok in H as (ps & st1 & Hps & H).
    apply submodule_parameters_exact in Hps as (-> & _). injection H as <-.
    split; [reflexivity|]. split; reflexivity.
Qed.

End TransferSetup.

Lemma optimizer_transfer_group_witness :
  param_at (Toy.final (step Toy.optimizer_classifier) Toy.init) Toy.model "classifier.6.weight"
    = sgd_param learning_rate <$> param_at Toy.init Toy.model "classifier.6.weight".
Proof.
  destruct (optimizer_transfer_group Toy.model Toy.init
              (Toy.final (optimizer_transfer Toy.model) Toy.init) Toy.optimizer_classifier)
    as (_ & _ & _ & _ & Hstep).
  - toy_run (mkSGD [] 0%float).
  - apply (Hstep Toy.init (Toy.final (step Toy.optimizer_classifier) Toy.init)).
    + toy_run tt.
    + by_evaluation.
    + exists (@mkParam Toy.framework 20 None true None). by_evaluation.
Defined.


Lemma freeze_features_sets_stray_attribute_witness :
  requires_grad <$> param_at (Toy.final (freeze_features Toy.model) Toy.init)
                      Toy.model "features.0.weight" = Some true.
Proof.
  destruct (freeze_features_sets_stray_attribute Toy.model Toy.init
              (Toy.final (freeze_features Toy.model) Toy.init)) as (_ & H & _).
  - toy_run tt.
  - rewrite H. by_evaluation.
Defined.

(** ** The cell that loads the checkpoint *)

Section LoadCell.

Context {F : Framework}.

Lemma tensors_loaded (saved : gmap string Tensor) (ps : gmap string Param) :
  dom saved = dom ps ->
  p_data <$> map_imap (fun n p => Some (load_param saved n p)) ps = saved.
Proof.
  intros Hdom. apply map_eq. intros n. rewrite lookup_fmap, map_lookup_imap.
  destruct (ps !! n) as [p|] eqn:Hp; cbn.
  - assert (Hv : is_Some (saved !! n)).
    { apply elem_of_dom. rewrite Hdom. apply elem_of_dom. eauto. }
    destruct Hv as [v Hv]. unfold load_param. rewrite Hv. reflexivity.
  - symmetry. apply not_elem_of_dom. rewrite Hdom. apply not_elem_of_dom. exact Hp.
Qed.

Lemma load_state_dict_inv (model : loc) (sd : StateDict) (st st' : State) :
  load_state_dict model sd st = Loaded st' ->
  exists m,
    heap st !! model = Some m /\ dom sd.1 = dom (named_parameters m) /\
    st' = set_heap
            (<[model := mkModule
                          (map_imap (fun n p => Some (load_param sd.1 n p))
                             (named_parameters m))
                          sd.2]> (heap st)) st.
Proof.
  unfold load_state_dict. destruct (heap st !! model) as [m|]; [|discriminate].
  destruct (decide _) as [Hdom|]; [|discriminate]. intros [= <-]. eauto.
Qed.

Lemma load_state_dict_reads_back (model : loc) (sd : StateDict) (st st' : State) :
  load_state_dict model sd st = Loaded st' -> state_dict model st' = Ok (sd, st').
Proof.
  intros H. apply load_state_dict_inv in H as (m & Hm & Hdom & ->).
  unfold state_dict. cbn [heap set_heap]. rewrite lookup_insert_eq.
  unfold tensors. cbn [named_parameters buffers].
  rewrite (tensors_loaded _ _ Hdom). destruct sd; reflexivity.
Qed.


Lemma load_own_tensors (ps : gmap string Param) :
  map_imap (fun n p => Some (load_param (p_data <$> ps) n p)) ps = ps.
Proof.
  apply map_eq. intros n. rewrite map_lookup_imap.
  destruct (ps !! n) as [p|] eqn:Hp; cbn; [|reflexivity].
  unfold load_param. rewrite lookup_fmap, Hp. cbn. destruct p; reflexivity.
Qed.

Lemma load_own_state_dict (model : loc) (sd : StateDict) (st st1 : State) :
  state_dict model st = Ok (sd, st1) -> load_state_dict model sd st = Loaded st.
Proof.
  unfold state_dict, load_state_dict. destruct (heap st !! model) as [m|] eqn:Hm; [|discriminate].
  intros [= <- _]. cbn [fst snd]. unfold tensors. rewrite decide_True by apply dom_fmap_L.
  rewrite load_own_tensors. f_equal. destruct m as [ps b]. cbn [named_parameters buffers].
  rewrite insert_id by exact Hm. destruct st; reflexivity.
Qed.

(** X12.  Loading the checkpoint right after it has been written changes
    nothing: the model already holds what the file holds. *)
Theorem checkpoint_then_load_is_identity (model : loc) (save_path : string)
    (valid_loss_min valid_loss : float) (st : State) (v : float) (st' : State) :
  checkpoint model save_path valid_loss_min valid_loss st = Ok (v, st') ->
  le valid_loss valid_loss_min = true ->
  load_checkpoint model save_path st' = Loaded st'.
Proof.
  intros H Hle. unfold checkpoint in H. rewrite Hle in H.
  apply bind_Ok in H as ([] & s1 & Hp & H).
  apply bind_Ok in H as (sd & s2 & Hsd & H).
  apply bind_Ok in H as ([] & s3 & Hsave & H).
  injection H as _ <-. unfold torch_save, modify in Hsave. injection Hsave as <-.
  unfold state_dict in Hsd. destruct (heap s1 !! model) as [m|] eqn:Hm; [|discriminate].
  injection Hsd as <- <-.
  unfold load_checkpoint, torch_load. cbn [files add_effect set_files].
  rewrite lookup_insert_eq. apply (load_own_state_dict _ _ _ (add_effect
    (TorchSave save_path (tensors m, buffers m))
    (set_files (<[save_path:=(tensors m, buffers m)]> (files s1)) s1))).
  unfold state_dict. cbn [heap add_effect set_files]. rewrite Hm. reflexivity.
Qed.

(** *** Training keeps the parameter names *)

Lemma same_names_refl st : same_names st st.
Proof. intros l n. reflexivity. Qed.

Lemma same_names_trans st1 st2 st3 :
  same_names st1 st2 -> same_names st2 st3 -> same_names st1 st3.
Proof. intros H1 H2 l n. etransitivity; [apply H2 | apply H1]. Qed.

Lemma calm_names st st' : calm st st' -> same_names st st'.
Proof. intros [H _] l n. rewrite H. reflexivity. Qed.

Lemma fold_update_names (f : Param -> Param) (G : list (loc * string))
    (h : gmap loc Module) (l : loc) (n : string) :
  is_Some (heap_param (fold_left (update_param f) G h) l n) <-> is_Some (heap_param h l n).
Proof.
  revert h. induction G as [|r G IH]; intros h; cbn; [reflexivity|].
  rewrite IH, heap_param_update. destruct (decide _); [|reflexivity].
  apply fmap_is_Some.
Qed.

Lemma zero_grad_names (optimizer : SGD) : respects same_names (zero_grad optimizer).
Proof. intros st [] st' [= <-] l n. unfold param_at. cbn. apply fold_update_names. Qed.

Lemma step_names (optimizer : SGD) : respects same_names (step optimizer).
Proof. intros st [] st' [= <-] l n. unfold param_at. cbn. apply fold_update_names. Qed.

Lemma backward_names (loss : Loss) : respects same_names (backward loss).
Proof.
  intros st [] st' [= <-] l n. unfold param_at, heap_param. cbn.
  rewrite lookup_alter. destruct (decide (loss_owner loss = l)) as [->|Hl]; [|reflexivity].
  destruct (heap st !! l) as [m|]; cbn; [|reflexivity].
  rewrite map_lookup_imap. destruct (named_parameters m !! n) as [p|]; cbn; [|reflexivity].
  split; eauto.
Qed.

Variables (loaders : Loaders) (model : loc) (optimizer : SGD)
          (criterion : Criterion) (use_cuda : bool) (save_path : string).

Lemma train_batch_names train_loss ib :
  respects same_names (train_batch loaders model optimizer criterion use_cuda train_loss ib).
Proof.
  assert (Ht := same_names_trans).
  assert (Hc : forall A (m : M A), respects calm m -> respects same_names m).
  { intros A m. apply respects_weaken. apply calm_names. }
  unfold train_batch.
  apply respects_bind; [exact Ht | apply zero_grad_names |]. intros _.
  apply respects_bind; [exact Ht | apply Hc, call_calm |]. intros o.
  apply respects_bind; [exact Ht | apply backward_names |]. intros _.
  apply respects_bind; [exact Ht | apply step_names |]. intros _.
  apply respects_bind; [exact Ht | apply Hc, print_batch_calm; reflexivity |]. intros _.
  apply respects_ret, same_names_refl.
Qed.

Lemma epoch_losses_names :
  respects same_names (epoch_losses loaders model optimizer criterion use_cuda).
Proof.
  assert (Ht := same_names_trans). assert (Hr := same_names_refl).
  assert (Hc : forall A (m : M A), respects calm m -> respects same_names m).
  { intros A m. apply respects_weaken. apply calm_names. }
  unfold epoch_losses.
  apply respects_bind; [exact Ht | |].
  { unfold train_phase. apply respects_bind; [exact Ht | apply Hc, iterate_calm |].
    intros bs. apply respects_for_each; [exact Hr | exact Ht |].
    intros s a. apply train_batch_names. }
  intros tl.
  apply respects_bind; [exact Ht | apply Hc, valid_phase_calm |]. intros vl.
  apply respects_bind; [exact Ht | apply respects_lift, Hr |]. intros tl'.
  apply respects_bind; [exact Ht | apply respects_lift, Hr |]. intros vl'.
  apply respects_ret, Hr.
Qed.

Lemma after_epochs_names (k : nat) :
  respects same_names
    (after_epochs k loaders model optimizer criterion use_cuda save_path).
Proof.
  unfold after_epochs. apply respects_for_each.
  - apply same_names_refl.
  - apply same_names_trans.
  - intros vmin epoch st v st' H.
    apply train_epoch_effects in H as (tl & vl & st1 & es & Hl & _ & Hheap & _).
    apply epoch_losses_names in Hl. intros l n. unfold param_at. rewrite Hheap. apply Hl.
Qed.

Lemma same_names_dom (st st' : State) (m m' : Module) :
  same_names st st' -> heap st !! model = Some m -> heap st' !! model = Some m' ->
  dom (named_parameters m') = dom (named_parameters m).
Proof.
  intros Hn Hm Hm'. apply set_eq. intros n. rewrite !elem_of_dom.
  specialize (Hn model n). unfold param_at, heap_param in Hn.
  rewrite Hm, Hm' in Hn. exact Hn.
Qed.

(** X13.  After a call of [train] in which some epoch had a validation loss
    that is not a NaN, the cell
    [model.load_state_dict(torch.load(save_path))] succeeds and leaves the
    model with the [state_dict()] it had at the end of an epoch whose
    validation loss is least among those that are not NaN. *)
Theorem load_after_train_restores_best_epoch (n_epochs : Z) (st0 : State) (r : loc)
    (st : State) (e0 : nat) (vl0 : float) :
  train n_epochs loaders model optimizer criterion use_cuda save_path st0 = Ok (r, st) ->
  (1 <= e0 <= Z.to_nat n_epochs)%nat ->
  epoch_valid_loss loaders model optimizer criterion use_cuda save_path e0 st0 vl0 ->
  PrimFloat.is_nan vl0 = false ->
  exists e vl sd st',
    (1 <= e <= Z.to_nat n_epochs)%nat /\
    epoch_valid_loss loaders model optimizer criterion use_cuda save_path e st0 vl /\
    PrimFloat.is_nan vl = false /\
    (forall e' vl', (1 <= e' <= Z.to_nat n_epochs)%nat ->
       epoch_valid_loss loaders model optimizer criterion use_cuda save_path e' st0 vl' ->
       PrimFloat.is_nan vl' = false -> le vl vl' = true) /\
    epoch_state_dict loaders model optimizer criterion use_cuda save_path e st0 sd /\
    load_checkpoint r save_path st = Loaded st' /\
    state_dict r st' = Ok (sd, st').
Proof.
  intros H He0 Hv0 Hnan0. rewrite train_after_epochs in H.
  apply bind_Ok in H as (vmin & st1 & H & [= <- <-]).
  destruct (best_so_far_holds _ _ _ _ _ _ _ _ _ _ H)
    as [(_ & _ & Hall)|(e & vl & sd & He & Hv & Hsd & Hnan & Hf & _ & Hmin)].
  { rewrite (Hall e0 vl0 He0 Hv0) in Hnan0. discriminate. }
  pose proof Hsd as (vme & ste & Hepochs & Hdict).
  assert (Hload : exists st', load_checkpoint model save_path st1 = Loaded st').
  { unfold load_checkpoint, torch_load. rewrite Hf.
    unfold state_dict in Hdict. destruct (heap ste !! model) as [me|] eqn:Hme; [|discriminate].
    injection Hdict as <-.
    pose proof (after_epochs_names _ _ _ _ Hepochs) as Hne.
    pose proof (after_epochs_names _ _ _ _ H) as Hn1.
    destruct (after_epochs_run_frame _ _ _ _ _ _ _ _ _ _ Hepochs) as (_ & Hoe & _).
    destruct (after_epochs_run_frame _ _ _ _ _ _ _ _ _ _ H) as (_ & Ho1 & _).
    assert (Hl0 : is_Some (heap st0 !! model)) by (apply Hoe; rewrite Hme; eauto).
    assert (Hl1 : is_Some (heap st1 !! model)) by (apply Ho1; exact Hl0).
    destruct Hl0 as [m0 Hm0]. destruct Hl1 as [m1 Hm1].
    unfold load_state_dict. rewrite Hm1. cbn [fst snd]. rewrite decide_True; [eauto|].
    unfold tensors. rewrite dom_fmap_L.
    rewrite (same_names_dom _ _ _ _ Hne Hm0 Hme), (same_names_dom _ _ _ _ Hn1 Hm0 Hm1).
    reflexivity. }
  destruct Hload as [st' Hload]. exists e, vl, sd, st'.
  split; [exact He|]. split; [exact Hv|]. split; [exact Hnan|]. split; [exact Hmin|].
  split; [exact Hsd|]. split; [exact Hload|].
  unfold load_checkpoint, torch_load in Hload. rewrite Hf in Hload.
  apply (load_state_dict_reads_back _ _ _ _ Hload).
Qed.

(** X14.  After a call of [train] in which every validation loss was a NaN (or
    that ran no epoch), nothing was saved: if there was no file at
    [save_path] before, the cell that loads the checkpoint raises
    [FileNotFoundError]. *)
Theorem load_after_train_without_checkpoint (n_epochs : Z) (st0 : State) (r : loc)
    (st : State) :
  train n_epochs loaders model optimizer criterion use_cuda save_path st0 = Ok (r, st) ->
  files st0 !! save_path = None ->
  (forall e vl, (1 <= e <= Z.to_nat n_epochs)%nat ->
     epoch_valid_loss loaders model optimizer criterion use_cuda save_path e st0 vl ->
     PrimFloat.is_nan vl = true) ->
  load_checkpoint r save_path st = FileNotFoundError.
Proof.
  intros H Hnone Hall. rewrite train_after_epochs in H.
  apply bind_Ok in H as (vmin & st1 & H & [= <- <-]).
  unfold load_checkpoint, torch_load.
  destruct (best_so_far_holds _ _ _ _ _ _ _ _ _ _ H)
    as [(_ & Hf & _)|(e & vl & sd & He & Hv & _ & Hnan & _)].
  - rewrite Hf, Hnone. reflexivity.
  - rewrite (Hall e vl He Hv) in Hnan. discriminate.
Qed.

End LoadCell.


Lemma checkpoint_then_load_is_identity_witness :
  load_checkpoint Toy.model Toy.save_path
    (Toy.final (checkpoint Toy.model Toy.save_path Inf 1%float) Toy.init)
  = Loaded (Toy.final (checkpoint Toy.model Toy.save_path Inf 1%float) Toy.init).
Proof.
  apply (checkpoint_then_load_is_identity Toy.model Toy.save_path Inf 1%float Toy.init 1%float).
  - toy_run 0%float.
  - by_evaluation.
Defined.

Lemma load_after_train_restores_best_epoch_witness :
  exists e sd st',
    epoch_state_dict (Toy.loaders [3%float; 1%float; 2%float]) Toy.model
      Toy.optimizer_scratch tt true Toy.save_path e Toy.init sd /\
    load_checkpoint Toy.model Toy.save_path
      (Toy.final (train 3 (Toy.loaders [3%float; 1%float; 2%float]) Toy.model
                    Toy.optimizer_scratch tt true Toy.save_path) Toy.init)
      = Loaded st' /\
    state_dict Toy.model st' = Ok (sd, st').
Proof.
  destruct (load_after_train_restores_best_epoch (Toy.loaders [3%float; 1%float; 2%float])
              Toy.model Toy.optimizer_scratch tt true Toy.save_path 3 Toy.init Toy.model
              (Toy.final (train 3 (Toy.loaders [3%float; 1%float; 2%float]) Toy.model
                            Toy.optimizer_scratch tt true Toy.save_path) Toy.init)
              1%nat 3%float)
    as (e & vl & sd & st' & _ & _ & _ & _ & Hsd & Hload & Hdict).
  - toy_run Toy.model.
  - lia.
  - exists Inf, Toy.init, 1%float, (Toy.final (Toy.losses [3%float; 1%float; 2%float]) Toy.init).
    split; [lia|]. split; [reflexivity | toy_run (0%float, 0%float)].
  - reflexivity.
  - exists e, sd, st'. split; [exact Hsd|]. split; [exact Hload | exact Hdict].
Defined.

Lemma load_after_train_without_checkpoint_witness :
  load_checkpoint Toy.model Toy.save_path
    (Toy.final (train 1 (Toy.loaders [nan]) Toy.model Toy.optimizer_scratch tt true
                  Toy.save_path) Toy.init)
  = FileNotFoundError.
Proof.
  apply (load_after_train_without_checkpoint (Toy.loaders [nan]) Toy.model
           Toy.optimizer_scratch tt true Toy.save_path 1 Toy.init).
  - toy_run Toy.model.
  - by_evaluation.
  - intros e vl He (vmin & st & tl & s & _ & Ha & Hl).
    assert (He1 : e = 1%nat) by lia. subst e.
    change (1 - 1)%nat with 0%nat in Ha. rewrite after_epochs_0 in Ha. injection Ha as _ <-.
    assert (Hrun : epoch_losses (Toy.loaders [nan]) Toy.model Toy.optimizer_scratch tt true
                     Toy.init
                   = Ok ((1%float, nan), Toy.final (Toy.losses [nan]) Toy.init))
      by toy_run (0%float, 0%float).
    rewrite Hrun in Hl. injection Hl as _ <- _. reflexivity.
Defined.

(** ** What one training batch does to a parameter *)

Section TrainingStep.

Context {F : Framework}.

Lemma fold_update_buffers (f : Param -> Param) (G : list (loc * string))
    (h : gmap loc Module) (l : loc) (m : Module) :
  h !! l = Some m ->
  exists m', fold_left (update_param f) G h !! l = Some m' /\ buffers m' = buffers m.
Proof.
  revert h m. induction G as [|r G IH]; intros h m Hm; cbn; [eauto|].
  destruct (IH (update_param f h r)
              (if decide (r.1 = l)
               then mkModule (alter f r.2 (named_parameters m)) (buffers m) else m))
    as (m' & Hm' & Hb).
  { unfold update_param. rewrite lookup_alter.
    destruct (decide (r.1 = l)) as [->|]; rewrite Hm; reflexivity. }
  exists m'. split; [exact Hm'|]. rewrite Hb. destruct (decide _); reflexivity.
Qed.

Lemma fold_update_tensors (f : Param -> Param) (G : list (loc * string))
    (h : gmap loc Module) (l : loc) (m m' : Module) :
  (forall p, p_data (f p) = p_data p) ->
  h !! l = Some m -> fold_left (update_param f) G h !! l = Some m' ->
  tensors m' = tensors m.
Proof.
  intros Hf Hm Hm'. apply map_eq. intros n. unfold tensors. rewrite !lookup_fmap.
  pose proof (fold_update_data f G h l n Hf) as H. unfold heap_param in H.
  rewrite Hm, Hm' in H. exact H.
Qed.

Variables (loaders : Loaders) (model : loc) (optimizer : SGD)
          (criterion : Criterion) (use_cuda : bool).

(** X15.  One batch of the training loop, seen from a parameter [n] of [model]
    that the optimizer holds (once) and that requires a gradient: its
    gradient after the batch is the gradient [g] of this batch's loss alone
    (added to the zeroed old gradient, if there was one), and its value has
    moved by exactly one SGD update with that gradient.  Gradients do
    not pile up from batch to batch. *)
Theorem train_batch_updates_parameter (train_loss : float) (ib : Z * (Data * Target))
    (st : State) (v : float) (st' : State) (m : Module) (n : string) (p : Param)
    (g : Tensor) :
  NoDup (param_group optimizer) ->
  (model, n) ∈ param_group optimizer ->
  heap st !! model = Some m ->
  named_parameters m !! n = Some p ->
  requires_grad p = true ->
  autograd criterion (world st) (tensors m) (buffers m)
    (move use_cuda ib.2).1 (move use_cuda ib.2).2 !! n = Some g ->
  train_batch loaders model optimizer criterion use_cuda train_loss ib st = Ok (v, st') ->
  let g' := match p_grad p with
            | None => g
            | Some g0 => tensor_add (zeros_like g0) g
            end in
  param_at st' model n =
    Some (mkParam (sgd_update (lr optimizer) (p_data p) g') (Some g') true (require_grad p)).
Proof.
  intros Hnd Hin Hm Hp Hreq Hg H g'. unfold train_batch in H.
  apply bind_Ok in H as ([] & st1 & Hzero & H).
  apply bind_Ok in H as (o & st2 & Hcall & H).
  apply bind_Ok in H as ([] & st3 & Hback & H).
  apply bind_Ok in H as ([] & st4 & Hstep & H).
  apply bind_Ok in H as ([] & st5 & Hprint & H).
  injection H as _ <-.
  assert (H5 : heap st5 = heap st4).
  { destruct (ib.1 mod 200 =? 0); injection Hprint as <-; reflexivity. }
  injection Hzero as <-. injection Hstep as <-. injection Hback as <-.
  unfold call in Hcall. cbn [heap set_heap world] in Hcall.
  destruct (fold_update_buffers zero_param (param_group optimizer) (heap st) model m Hm)
    as (m1 & Hm1 & Hb1).
  rewrite Hm1 in Hcall. injection Hcall as <- <-.
  pose proof (fold_update_tensors zero_param (param_group optimizer) (heap st) model m m1
                zero_param_data Hm Hm1) as Ht1.
  pose proof (fold_update_in zero_param (param_group optimizer) (heap st) model n Hnd Hin)
    as Hz.
  unfold heap_param in Hz. rewrite Hm1, Hm, Hp in Hz. cbn in Hz.
  unfold param_at. rewrite H5. cbn [heap set_heap set_world].
  rewrite (fold_update_in _ _ _ _ _ Hnd Hin).
  unfold heap_param. cbn [loss_owner apply_criterion out_owner loss_grads out_graph].
  rewrite lookup_alter, decide_True by reflexivity.
  rewrite lookup_insert_eq. cbn. rewrite map_lookup_imap, Hz. cbn.
  rewrite Ht1, Hb1, Hg. unfold accumulate, zero_param, sgd_param.
  destruct p as [d [g0|] rq rg]; cbn in *; subst rq; reflexivity.
Qed.

End TrainingStep.

Lemma train_batch_updates_parameter_witness :
  param_at
    (Toy.final (train_batch (Toy.loaders [1%float]) Toy.model Toy.optimizer_scratch tt true
                  0%float (0, (Toy.mkBatch 2 1%float [0; 1], [0; 0]))) Toy.init)
    Toy.model "classifier.6.weight"
  = Some (@mkParam Toy.framework (20 - 1) (Some 1) true None).
Proof.
  refine (train_batch_updates_parameter (Toy.loaders [1%float]) Toy.model
            Toy.optimizer_scratch tt true 0%float
            (0, (Toy.mkBatch 2 1%float [0; 1], [0; 0])) Toy.init 2%float _ Toy.net
            "classifier.6.weight" (@mkParam Toy.framework 20 None true None) 1
            _ _ _ _ _ _ _).
  - apply NoDup_cons. split; [|apply NoDup_singleton].
    intros H. apply list_elem_of_singleton in H. discriminate H.
  - right. left.
  - by_evaluation.
  - by_evaluation.
  - reflexivity.
  - by_evaluation.
  - toy_run 0%float.
Defined.

(** ** The feature extractor during transfer learning *)

Section FrozenGradients.

Context {F : Framework}.

Variables (loaders : Loaders) (model : loc) (criterion : Criterion) (use_cuda : bool).

(** A parameter the optimizer does not hold keeps its value across a
    training batch, and its gradient is neither zeroed nor used: the
    gradient of the batch is added to what was there. *)
Lemma train_batch_outside_optimizer (optimizer : SGD) (train_loss : float)
    (ib : Z * (Data * Target)) (st : State) (v : float) (st' : State) (m : Module)
    (n : string) (p : Param) (g : Tensor) :
  (model, n) ∉ param_group optimizer ->
  heap st !! model = Some m ->
  named_parameters m !! n = Some p ->
  requires_grad p = true ->
  autograd criterion (world st) (tensors m) (buffers m)
    (move use_cuda ib.2).1 (move use_cuda ib.2).2 !! n = Some g ->
  train_batch loaders model optimizer criterion use_cuda train_loss ib st = Ok (v, st') ->
  param_at st' model n =
    Some (mkParam (p_data p)
            (Some (match p_grad p with None => g | Some g0 => tensor_add g0 g end))
            true (require_grad p)).
Proof.
  intros Hout Hm Hp Hreq Hg H. unfold train_batch in H.
  apply bind_Ok in H as ([] & st1 & Hzero & H).
  apply bind_Ok in H as (o & st2 & Hcall & H).
  apply bind_Ok in H as ([] & st3 & Hback & H).
  apply bind_Ok in H as ([] & st4 & Hstep & H).
  apply bind_Ok in H as ([] & st5 & Hprint & H).
  injection H as _ <-.
  assert (H5 : heap st5 = heap st4).
  { destruct (ib.1 mod 200 =? 0); injection Hprint as <-; reflexivity. }
  injection Hzero as <-. injection Hstep as <-. injection Hback as <-.
  unfold call in Hcall. cbn [heap set_heap world] in Hcall.
  destruct (fold_update_buffers zero_param (param_group optimizer) (heap st) model m Hm)
    as (m1 & Hm1 & Hb1).
  rewrite Hm1 in Hcall. injection Hcall as <- <-.
  pose proof (fold_update_tensors zero_param (param_group optimizer) (heap st) model m m1
                zero_param_data Hm Hm1) as Ht1.
  pose proof (fold_update_outside zero_param (param_group optimizer) (heap st) model n Hout)
    as Hz.
  unfold heap_param in Hz. rewrite Hm1, Hm, Hp in Hz.
  unfold param_at. rewrite H5. cbn [heap set_heap set_world].
  rewrite (fold_update_outside _ _ _ _ _ Hout).
  unfold heap_param. cbn [loss_owner apply_criterion out_owner loss_grads out_graph].
  rewrite lookup_alter, decide_True by reflexivity.
  rewrite lookup_insert_eq. cbn. rewrite map_lookup_imap, Hz. cbn.
  rewrite Ht1, Hb1, Hg. unfold accumulate. rewrite Hreq. reflexivity.
Qed.

(** X16.  In the transfer notebook the feature extractor is not frozen.  After
    the "freeze" cell and with [optimizer_transfer], a training batch
    still computes the gradient of every feature parameter that required
    one before the cell and adds it to the parameter's [grad], which
    nothing zeroes; only the value stays, because the optimizer does not
    hold the parameter. *)
Theorem frozen_features_still_get_gradients (st0 st st1 : State) (optimizer_tr : SGD)
    (train_loss : float) (ib : Z * (Data * Target)) (v : float) (st' : State)
    (m : Module) (n : string) (p : Param) (g : Tensor) :
  freeze_features model st0 = Ok (tt, st) ->
  optimizer_transfer model st = Ok (optimizer_tr, st1) ->
  is_features n = true ->
  param_at st0 model n = Some p ->
  requires_grad p = true ->
  heap st !! model = Some m ->
  autograd criterion (world st) (tensors m) (buffers m)
    (move use_cuda ib.2).1 (move use_cuda ib.2).2 !! n = Some g ->
  train_batch loaders model optimizer_tr criterion use_cuda train_loss ib st = Ok (v, st') ->
  param_at st' model n =
    Some (mkParam (p_data p)
            (Some (match p_grad p with None => g | Some g0 => tensor_add g0 g end))
            true (Some false)).
Proof.
  intros Hfreeze Hopt Hn Hp Hreq Hm Hg H.
  pose proof (freeze_features_char model st0 st model n Hfreeze) as Hc.
  rewrite decide_True, Hp in Hc by auto. cbn in Hc.
  apply optimizer_transfer_inv in Hopt as (_ & _ & HG).
  assert (Hout : (model, n) ∉ param_group optimizer_tr).
  { intros Hin. destruct (HG _ _ Hin) as [_ Hcl].
    rewrite (features_not_classifier n Hn) in Hcl. discriminate. }
  unfold param_at, heap_param in Hc. rewrite Hm in Hc.
  apply (train_batch_outside_optimizer optimizer_tr train_loss ib st v st' m n
           (set_require_grad p) g Hout Hm Hc Hreq Hg H).
Qed.

End FrozenGradients.

Lemma lookup_default {A} (d : A) (o : option A) :
  (match o with Some _ => true | None => false end) = true -> o = Some (default d o).
Proof. destruct o; [reflexivity | discriminate]. Qed.

Lemma frozen_features_still_get_gradients_witness :
  param_at
    (Toy.final (train_batch (Toy.loaders [1%float]) Toy.model Toy.optimizer_classifier tt true
                  0%float (0, (Toy.mkBatch 2 1%float [0; 1], [0; 0])))
       (Toy.final (freeze_features Toy.model) Toy.init))
    Toy.model "features.0.weight"
  = Some (@mkParam Toy.framework 10 (Some 1) true (Some false)).
Proof.
  refine (frozen_features_still_get_gradients (Toy.loaders [1%float]) Toy.model tt true
            Toy.init (Toy.final (freeze_features Toy.model) Toy.init)
            (Toy.final (optimizer_transfer Toy.model)
               (Toy.final (freeze_features Toy.model) Toy.init))
            Toy.optimizer_classifier 0%float
            (0, (Toy.mkBatch 2 1%float [0; 1], [0; 0])) 2%float _
            (default Toy.net
               (heap (Toy.final (freeze_features Toy.model) Toy.init) !! Toy.model))
            "features.0.weight" (@mkParam Toy.framework 10 None true None) 1
            _ _ _ _ _ _ _ _).
  - toy_run tt.
  - toy_run (mkSGD [] 0%float).
  - by_evaluation.
  - by_evaluation.
  - reflexivity.
  - apply (lookup_default Toy.net). by_evaluation.
  - by_evaluation.
  - toy_run 0%float.
Defined.

(** ** The count of right predictions *)

Section Counting.

Lemma count_eq_range (pred target : list Z) :
  0 <= count_eq pred target <= Z.of_nat (length pred).
Proof.
  revert target. induction pred as [|p pred IH]; intros [|t target]; cbn [count_eq length]; try lia.
  specialize (IH target). destruct (p =? t); lia.
Qed.

(** X17.  What a batch adds to [correct] in [test] lies between [0] and the
    number of predictions, and it is that number exactly when every
    prediction is the label. *)
Theorem count_eq_full_iff_all_right (pred target : list Z) :
  length pred = length target ->
  0 <= count_eq pred target <= Z.of_nat (length pred) /\
  (count_eq pred target = Z.of_nat (length pred) <-> pred = target).
Proof.
  intros Hlen. split; [apply count_eq_range|].
  revert target Hlen. induction pred as [|p pred IH]; intros [|t target] Hlen;
    try discriminate; cbn [count_eq length].
  - split; reflexivity.
  - injection Hlen as Hlen. specialize (IH target Hlen).
    pose proof (count_eq_range pred target) as Hr.
    destruct (Z.eqb_spec p t) as [->|Hne].
    + split.
      * intros H. f_equal. apply IH. lia.
      * intros [= ->]. pose proof (proj2 IH eq_refl). lia.
    + split; [lia|]. intros [= -> _]. contradiction.
Qed.

End Counting.

Lemma count_eq_full_iff_all_right_witness :
  0 <= count_eq [0; 1] [0; 0] <= 2 /\ (count_eq [0; 1] [0; 0] = 2 <-> [0; 1] = [0; 0]).
Proof. apply (count_eq_full_iff_all_right [0; 1] [0; 0]). reflexivity. Defined.
